(** * Album-Maker-Bot: the queue / timer / dispatch core, embedded and verified

    Sources: [src/config.py] and [src/album_bot_auto.py].

    Modelling conventions.
    - The three module-level dictionaries [pending], [timers] and
      [send_locks] are fields of one explicit [world]; every handler is a
      computation in a small state-and-exception monad over that world.
    - Calls into the messaging platform are recorded, in order, in the
      [calls] field.  Whether a call raises is decided by the [script] field:
      the outcome of the next call is the head of the script ([Some e]: the
      call raises an exception whose text is [e]; [None] or an exhausted
      script: the call returns).  Quantifying over the script quantifies
      over every pattern of platform failures.
    - A transition of the model is one handler run from its first line to
      its last (the cooperative scheduler of the source never preempts
      between two suspension points; interleavings at the [await]s are not
      part of this model).  The per-user lock is therefore free whenever a
      handler asks for it; what stays visible of [send_locks] is the entry
      that the defaultdict creates on first access.
    - Logging calls have no effect on the modelled state and are omitted. *)

From Stdlib Require Import ZArith Lia Ascii Uint63 Floats.PrimFloat.
From stdpp Require Import gmap strings list fin_maps pretty.

Local Open Scope Z_scope.

(** ** Python values used by the program *)

(** Exceptions.  [SystemExit] derives from [BaseException] only, the other
    three from [Exception]; [RPCError] stands for whatever exception a
    platform call raises and carries its text. *)
Inductive exn :=
| ValueError (msg : string)
| NameError (msg : string)
| RPCError (msg : string)
| SystemExit (code : Z).

(** [isinstance(e, Exception)], what an [except Exception] clause tests. *)
Definition is_Exception (e : exn) : bool :=
  match e with
  | SystemExit _ => false
  | _ => true
  end.

(** [str(e)], as interpolated by an f-string. *)
Definition exn_str (e : exn) : string :=
  match e with
  | ValueError msg | NameError msg | RPCError msg => msg
  | SystemExit code => pretty code
  end.

Inductive result (A : Type) :=
| Ok (a : A)
| Raise (e : exn).
Arguments Ok {A} a.
Arguments Raise {A} e.

(** Truth value of a Python string. *)
Definition str_truthy (s : string) : bool := negb (String.eqb s "").

(** [s.startswith(p)] *)
Definition startswith (p s : string) : bool := String.prefix p s.

Definition nl : string := String (Ascii.ascii_of_nat 10) EmptyString.

(** ** config.py *)

(** The names config.py exports to the bot. *)
Record config := Config {
  API_ID : Z;
  API_HASH : string;
  BOT_TOKEN : string;
  AUTO_SEND_THRESHOLD : Z;
  AUTO_SEND_DELAY : float;
}.

(** [os.environ.get(key, default)] *)
Definition environ_get (environ : gmap string string) (key dflt : string) : string :=
  default dflt (environ !! key).

Section Config.

(** Python's built-in [int] and [float] applied to a string; [None] is a
    [ValueError]. *)
Variable py_int : string -> option Z.
Variable py_float : string -> option float.

(** Lines 19-24. *)
Definition load_threshold (environ : gmap string string) : Z :=
  match py_int (environ_get environ "AUTO_SEND_THRESHOLD" "10") with
  | Some n => if n >? 10 then 10 else n
  | None => 10
  end.

(** Lines 27-30. *)
Definition load_delay (environ : gmap string string) : float :=
  match py_float (environ_get environ "AUTO_SEND_DELAY" "3") with
  | Some d => d
  | None => 3%float
  end.

(** Executing config.py under the environment [environ].  Line 16 names
    [LOGGER], which the module never binds (it binds [logger]): reaching
    it raises [NameError]. *)
Definition load_config (environ : gmap string string) : result config :=
  let token := environ_get environ "BOT_TOKEN" "6556dtg" in
  if negb (str_truthy token) then Raise (NameError "name 'LOGGER' is not defined")
  else
    Ok {| API_ID := 123456;
          API_HASH := "your_api_hash";
          BOT_TOKEN := token;
          AUTO_SEND_THRESHOLD := load_threshold environ;
          AUTO_SEND_DELAY := load_delay environ |}.

(** How start-up ends: the interpreter stops on an exception, or the
    script reaches [app.run()] and the bot serves events under [cfg]. *)
Inductive startup :=
| Stopped (e : exn)
| Serving (cfg : config).

(** Running album_bot_auto.py as a script: the import of config, then the
    guard of lines 229-235. *)
Definition main (environ : gmap string string) : startup :=
  match load_config environ with
  | Raise e => Stopped e
  | Ok cfg =>
      if String.eqb (BOT_TOKEN cfg) "YOUR-BOT-TOKEN-HERE" || negb (str_truthy (BOT_TOKEN cfg))
      then Stopped (SystemExit 1)
      else Serving cfg
  end.

End Config.

(** Sample parsers for ASCII text, used to run the model on concrete
    environments: whitespace around an optionally signed run of decimal
    digits, single underscores allowed between digits. *)
Definition is_space (a : Ascii.ascii) : bool :=
  let n := Ascii.nat_of_ascii a in
  (Nat.leb 9 n && Nat.leb n 13) || Nat.eqb n 32.

Definition is_digit (a : Ascii.ascii) : bool :=
  let n := Ascii.nat_of_ascii a in
  Nat.leb 48 n && Nat.leb n 57.

Fixpoint lstrip (s : string) : string :=
  match s with
  | String a r => if is_space a then lstrip r else s
  | EmptyString => EmptyString
  end.

Definition strip (s : string) : string :=
  String.rev (lstrip (String.rev (lstrip s))).

Fixpoint digits (acc : Z) (after_digit : bool) (s : string) : option Z :=
  match s with
  | EmptyString => if after_digit then Some acc else None
  | String a r =>
      if is_digit a then
        digits (10 * acc + (Z.of_nat (Ascii.nat_of_ascii a) - 48)) true r
      else if Ascii.eqb a "_"%char && after_digit then digits acc false r
      else None
  end.

Definition int_of_str (s : string) : option Z :=
  match strip s with
  | String "-"%char r => option_map Z.opp (digits 0 false r)
  | String "+"%char r => digits 0 false r
  | r => digits 0 false r
  end.

(** Integer literals that a binary64 float holds exactly. *)
Definition float_of_str (s : string) : option float :=
  match int_of_str s with
  | Some z =>
      if Z.abs z <=? 2 ^ 53 then
        let f := PrimFloat.of_uint63 (Uint63.of_Z (Z.abs z)) in
        Some (if z <? 0 then PrimFloat.opp f else f)
      else None
  | None => None
  end.

(** ** Data model of album_bot_auto.py *)

(** A queued item: the dict [{"type": .., "file_id": .., "caption": ..}]. *)
Record item := Item {
  typ : string;
  file_id : string;
  caption : option string;
}.

(** pyrogram's [InputMediaPhoto] / [InputMediaVideo]. *)
Inductive input_media :=
| InputMediaPhoto (media : string) (cap : option string)
| InputMediaVideo (media : string) (cap : option string).

(** Calls into the platform client (and replies through a message). *)
Inductive call :=
| send_photo (chat_id : Z) (photo : string) (cap : option string)
| send_video (chat_id : Z) (video : string) (cap : option string)
| send_media_group (chat_id : Z) (media : list input_media)
| send_message (chat_id : Z) (text : string)
| reply_text (chat_id : Z) (message_id : Z) (text : string) (quote : option bool)
| reply_photo (chat_id : Z) (message_id : Z) (photo : string) (cap : string).

(** An [asyncio.Task] running [_wait_and_send] for one user. *)
Inductive task_state := Sleeping | Running | Cancelled | Finished.

Record task := Task {
  task_user : Z;
  task_chat : Z;
  state : task_state;
}.

(** [task.done()] *)
Definition done (t : task) : bool :=
  match state t with
  | Cancelled | Finished => true
  | Sleeping | Running => false
  end.

(** [task.cancel()] on a task that is not done. *)
Definition cancel (t : task) : task :=
  {| task_user := task_user t; task_chat := task_chat t; state := Cancelled |}.

(** The module state together with the platform. Tasks are identified by
    their position in [tasks] (the order of creation). *)
Record world := World {
  pending : gmap Z (list item);
  timers : gmap Z nat;
  send_locks : gset Z;
  tasks : list task;
  calls : list call;
  script : list (option string);
}.

Definition set_pending (f : gmap Z (list item) -> gmap Z (list item)) (w : world) : world :=
  {| pending := f (pending w); timers := timers w; send_locks := send_locks w;
     tasks := tasks w; calls := calls w; script := script w |}.

Definition set_timers (f : gmap Z nat -> gmap Z nat) (w : world) : world :=
  {| pending := pending w; timers := f (timers w); send_locks := send_locks w;
     tasks := tasks w; calls := calls w; script := script w |}.

Definition set_send_locks (f : gset Z -> gset Z) (w : world) : world :=
  {| pending := pending w; timers := timers w; send_locks := f (send_locks w);
     tasks := tasks w; calls := calls w; script := script w |}.

Definition set_tasks (f : list task -> list task) (w : world) : world :=
  {| pending := pending w; timers := timers w; send_locks := send_locks w;
     tasks := f (tasks w); calls := calls w; script := script w |}.

(** The state right after the module is imported. *)
Definition initial (outcomes : list (option string)) : world :=
  {| pending := ∅; timers := ∅; send_locks := ∅; tasks := []; calls := [];
     script := outcomes |}.

(** ** The state-and-exception monad *)

Definition M (A : Type) : Type := world -> result A * world.

Definition ret {A} (a : A) : M A := fun w => (Ok a, w).

Definition bind {A B} (m : M A) (k : A -> M B) : M B :=
  fun w =>
    match m w with
    | (Ok a, w') => k a w'
    | (Raise e, w') => (Raise e, w')
    end.

Definition lift {A} (r : result A) : M A := fun w => (r, w).

Definition gets {A} (f : world -> A) : M A := fun w => (Ok (f w), w).

Definition modify (f : world -> world) : M unit := fun w => (Ok tt, f w).

(** [try: body  except Exception as e: handler(e)] *)
Definition try_except {A} (body : M A) (handler : exn -> M A) : M A :=
  fun w =>
    match body w with
    | (Ok a, w') => (Ok a, w')
    | (Raise e, w') => if is_Exception e then handler e w' else (Raise e, w')
    end.

Notation "x <- m ;; k" := (bind m (fun x => k))
  (at level 90, m at level 80, right associativity).
Notation "m ;;; k" := (bind m (fun _ => k))
  (at level 90, right associativity).

(** The world once call [c] has been issued: the call is recorded and its
    outcome consumed from the script. *)
Definition logged (c : call) (w : world) : world :=
  {| pending := pending w; timers := timers w; send_locks := send_locks w;
     tasks := tasks w; calls := calls w ++ [c]; script := tail (script w) |}.

(** One call into the platform: it returns or raises as the script says. *)
Definition platform (c : call) : M unit :=
  fun w =>
    match script w with
    | Some e :: _ => (Raise (RPCError e), logged c w)
    | _ => (Ok tt, logged c w)
    end.

(** [async with send_locks[user_id]: body].  The lock is free on entry and
    released on every exit path; the defaultdict keeps the entry. *)
Definition with_lock {A} (user_id : Z) (body : M A) : M A :=
  fun w => body (set_send_locks (fun s => {[user_id]} ∪ s) w).

(** ** album_bot_auto.py, lines 35-133: media entries, timers, dispatcher *)

(** [_make_input_media(item, with_caption=False)] *)
Definition _make_input_media (it : item) (with_caption : bool) : result input_media :=
  let cap := if with_caption then caption it else None in
  if String.eqb (typ it) "photo" then Ok (InputMediaPhoto (file_id it) cap)
  else if String.eqb (typ it) "video" then Ok (InputMediaVideo (file_id it) cap)
  else Raise (ValueError "Unsupported media type").

(** The loop of lines 107-110: [media.append(_make_input_media(item,
    with_caption=(i == 0)))] for [i, item] in [enumerate(to_send)], started
    at index [i]; the first exception ends it. *)
Fixpoint build_media (i : nat) (to_send : list item) : result (list input_media) :=
  match to_send with
  | [] => Ok []
  | it :: rest =>
      match _make_input_media it (Nat.eqb i 0) with
      | Raise e => Raise e
      | Ok m =>
          match build_media (S i) rest with
          | Raise e => Raise e
          | Ok ms => Ok (m :: ms)
          end
      end
  end.

(** [_cancel_timer(user_id)]: pop the user's task; cancel it unless done. *)
Definition _cancel_timer (user_id : Z) : M unit :=
  modify (fun w =>
    match timers w !! user_id with
    | None => w
    | Some tid =>
        let w1 := set_timers (delete user_id) w in
        match tasks w !! tid with
        | Some t => if done t then w1 else set_tasks (fun ts => <[tid := cancel t]> ts) w1
        | None => w1
        end
    end).

(** [_start_timer(client, user_id, chat_id)]: cancel the previous task,
    create a new one (sleeping) and record it for the user. *)
Definition _start_timer (user_id chat_id : Z) : M unit :=
  _cancel_timer user_id ;;;
  modify (fun w =>
    let tid := length (tasks w) in
    set_timers (fun t => <[user_id := tid]> t)
      (set_tasks (fun ts => ts ++ [Task user_id chat_id Sleeping]) w)).

(** The single-item branch, lines 94-102. *)
Definition send_single (chat_id : Z) (it : item) : M unit :=
  if String.eqb (typ it) "photo" then platform (send_photo chat_id (file_id it) (caption it))
  else if String.eqb (typ it) "video" then platform (send_video chat_id (file_id it) (caption it))
  else ret tt.

(** The album branch, lines 107-112. *)
Definition send_group (chat_id : Z) (to_send : list item) : M unit :=
  media <- lift (build_media 0 to_send) ;;
  platform (send_media_group chat_id media).

(** The [try] statement of lines 91-120: the send, and on an exception the
    report to the user, itself guarded. *)
Definition try_send (chat_id : Z) (to_send : list item) : M unit :=
  try_except
    (match to_send with
     | [it] => send_single chat_id it
     | _ => send_group chat_id to_send
     end)
    (fun e =>
       try_except
         (platform (send_message chat_id ("Failed to send media: `" +:+ exn_str e +:+ "`")))
         (fun _ => ret tt)).

(** Lines 122-133: what happens to the queue and the timer afterwards. *)
Definition handle_state (user_id chat_id : Z) (remaining : list item) : M unit :=
  match remaining with
  | _ :: _ =>
      modify (set_pending (fun p => <[user_id := remaining]> p)) ;;;
      _start_timer user_id chat_id
  | [] =>
      modify (set_pending (delete user_id)) ;;;
      _cancel_timer user_id
  end.

(** [send_album_for_user(client, user_id, chat_id)] *)
Definition send_album_for_user (user_id chat_id : Z) : M unit :=
  with_lock user_id (
    items <- gets (fun w => default [] (pending w !! user_id)) ;;
    match items with
    | [] => ret tt
    | _ :: _ =>
        let to_send := take 10 items in
        let remaining := drop 10 items in
        try_send chat_id to_send ;;;
        handle_state user_id chat_id remaining
    end).

(** A running task whose coroutine returns becomes finished; a task that
    asked for its own cancellation while running stays cancelled. *)
Definition finish_task (tid : nat) (w : world) : world :=
  set_tasks (fun ts =>
    match ts !! tid with
    | Some (Task u c Running) => <[tid := Task u c Finished]> ts
    | _ => ts
    end) w.

(** The body of [_wait_and_send] after [asyncio.sleep] has returned, run for
    task [tid].  A task that was cancelled while sleeping never gets here. *)
Definition _wait_and_send (tid : nat) : M unit :=
  fun w =>
    match tasks w !! tid with
    | Some (Task user_id chat_id Sleeping) =>
        (modify (set_tasks (fun ts => <[tid := Task user_id chat_id Running]> ts)) ;;;
         try_except
           (items <- gets (fun w => pending w !! user_id) ;;
            match items with
            | Some (_ :: _) => send_album_for_user user_id chat_id
            | _ => ret tt
            end)
           (fun _ => ret tt) ;;;
         modify (finish_task tid)) w
    | _ => (Ok tt, w)
    end.

(** ** album_bot_auto.py, lines 136-226: the handlers *)

(** pyrogram's [Document]. *)
Record document := Document {
  doc_file_id : string;
  mime_type : option string;
}.

(** The fields of an inbound [Message] that the handlers read.  A media
    field holds the [file_id] of the attached object when there is one. *)
Record message := Message {
  from_user : Z;
  chat : Z;
  message_id : Z;
  photo : option string;
  video : option string;
  animation : option string;
  doc : option document;
  msg_caption : option string;
}.

(** Outcome of step 1 of [collect_media] (lines 141-162). *)
Inductive detection :=
| Detected (typ file_id : string)
| UnsupportedDocument
| NoMedia.

Definition detect_media_type (m : message) : detection :=
  match photo m with
  | Some f => Detected "photo" f
  | None =>
      match video m with
      | Some f => Detected "video" f
      | None =>
          match animation m with
          | Some f => Detected "video" f
          | None =>
              match doc m with
              | Some d =>
                  let mime := default "" (mime_type d) in
                  if startswith "image/" mime then Detected "photo" (doc_file_id d)
                  else if startswith "video/" mime then Detected "video" (doc_file_id d)
                  else UnsupportedDocument
              | None => NoMedia
              end
          end
      end
  end.

(** [message.caption or None] *)
Definition caption_or_None (m : message) : option string :=
  match msg_caption m with
  | Some s => if str_truthy s then Some s else None
  | None => None
  end.

(** [pending[user_id].append(x)] on the defaultdict. *)
Definition pending_append (user_id : Z) (x : item) (w : world) : world :=
  set_pending (fun p => <[user_id := default [] (p !! user_id) ++ [x]]> p) w.

Section Handlers.

(** The loaded configuration, and Python's [str] on a float. *)
Variable cfg : config.
Variable str_float : float -> string.

Definition album_started : string :=
  "**Album started!**" +:+ nl +:+
  "Send more photos/videos to group them." +:+ nl +:+
  "Auto-sending after " +:+ str_float (AUTO_SEND_DELAY cfg) +:+ "s of silence.".

(** [collect_media(client, message)] *)
Definition collect_media (m : message) : M unit :=
  let user_id := from_user m in
  let chat_id := chat m in
  match detect_media_type m with
  | UnsupportedDocument =>
      platform (reply_text chat_id (message_id m)
                  "Unsupported document type. Please send images or videos." None)
  | NoMedia => ret tt
  | Detected typ file_id =>
      let caption := caption_or_None m in
      modify (pending_append user_id (Item typ file_id caption)) ;;;
      total <- gets (fun w => length (default [] (pending w !! user_id))) ;;
      if Z.of_nat total >=? AUTO_SEND_THRESHOLD cfg then
        _cancel_timer user_id ;;;
        send_album_for_user user_id chat_id
      else
        _start_timer user_id chat_id ;;;
        if Nat.eqb total 1 then
          platform (reply_text chat_id (message_id m) album_started (Some true))
        else ret tt
  end.

(** [send_album_command(client, message)] *)
Definition send_album_command (m : message) : M unit :=
  let user_id := from_user m in
  _cancel_timer user_id ;;;
  send_album_for_user user_id (chat m).

(** [cancel_queue(client, message)] *)
Definition cancel_queue (m : message) : M unit :=
  let user_id := from_user m in
  present <- gets (fun w => bool_decide (is_Some (pending w !! user_id))) ;;
  if (present : bool) then
    modify (set_pending (delete user_id)) ;;;
    _cancel_timer user_id ;;;
    platform (reply_text (chat m) (message_id m) "‚ùå Album queue cleared." None)
  else
    platform (reply_text (chat m) (message_id m) "Queue is already empty." None).

(** [status(client, message)] *)
Definition status (m : message) : M unit :=
  let user_id := from_user m in
  total <- gets (fun w => length (default [] (pending w !! user_id))) ;;
  platform (reply_text (chat m) (message_id m)
              ("üìÅ Current queue: **" +:+ pretty total +:+ "** items.") None).

(** [start(client, message)] *)
Definition start (m : message) : M unit :=
  platform (reply_photo (chat m) (message_id m)
    "https://i.ibb.co/QjdgRJG4/Neo-Matrix90.jpg"
    ("üëã **Hi!**" +:+ nl +:+ nl +:+
     "Send me photos or videos. I will group them into an album automatically." +:+ nl +:+ nl +:+
     "‚Ä¢ **Threshold:** `" +:+ pretty (AUTO_SEND_THRESHOLD cfg) +:+ " items`" +:+ nl +:+
     "‚Ä¢ **Delay:** `" +:+ str_float (AUTO_SEND_DELAY cfg) +:+ " seconds`" +:+ nl +:+ nl +:+
     "Commands:" +:+ nl +:+
     "/send_album - Force send now" +:+ nl +:+
     "/cancel - Clear queue" +:+ nl +:+
     "/status - Check queue")).

(** What the running bot reacts to: an inbound message routed to its
    handler, or the sleep of a timer task running out. *)
Inductive event :=
| NewMedia (m : message)
| SendAlbumCommand (m : message)
| CancelCommand (m : message)
| StatusCommand (m : message)
| StartCommand (m : message)
| TimerElapsed (tid : nat).

Definition handle (ev : event) : M unit :=
  match ev with
  | NewMedia m => collect_media m
  | SendAlbumCommand m => send_album_command m
  | CancelCommand m => cancel_queue m
  | StatusCommand m => status m
  | StartCommand m => start m
  | TimerElapsed tid => _wait_and_send tid
  end.

(** An exception that leaves a handler is logged by the framework; the
    module state stays as the handler left it. *)
Definition step (w : world) (ev : event) : world := snd (handle ev w).

Definition run (w : world) (evs : list event) : world := fold_left step evs w.

End Handlers.


(** ** Vocabulary of the statements *)

(** An item as [collect_media] builds them: its type is one of the two
    strings the senders know. *)
Definition item_ok (it : item) : Prop := typ it = "photo" \/ typ it = "video".

Definition media_typ (m : input_media) : string :=
  match m with
  | InputMediaPhoto _ _ => "photo"
  | InputMediaVideo _ _ => "video"
  end.

Definition media_file (m : input_media) : string :=
  match m with
  | InputMediaPhoto f _ | InputMediaVideo f _ => f
  end.

Definition media_caption (m : input_media) : option string :=
  match m with
  | InputMediaPhoto _ c | InputMediaVideo _ c => c
  end.

(** The text of the report that follows a failed send. *)
Definition failure_note (chat_id : Z) (e : string) : call :=
  send_message chat_id ("Failed to send media: `" +:+ e +:+ "`").

(** The world after the guarded send of call [c]: the call, and the report
    when the call raised. *)
Definition after_attempt (chat_id : Z) (c : call) (w : world) : world :=
  match script w with
  | Some e :: _ => logged (failure_note chat_id e) (logged c w)
  | _ => logged c w
  end.

(** Every queue held in the registry satisfies [P]. *)
Definition queues_inv (P : list item -> Prop) (w : world) : Prop :=
  forall u l, pending w !! u = Some l -> P l.

(** Every entry that exists in the registry holds at least one item. *)
Definition registry_inv (w : world) : Prop := queues_inv (fun l => l <> []) w.

(** Every queued item is well formed. *)
Definition items_inv (w : world) : Prop := queues_inv (Forall item_ok) w.

(** The user's timer handle, if any, points to a task that sleeps for the
    user and will dispatch to [chat_id]. *)
Definition armed (w : world) (user_id chat_id : Z) : Prop :=
  exists tid, timers w !! user_id = Some tid /\
              tasks w !! tid = Some (Task user_id chat_id Sleeping).

(** Task [tid] will never run the dispatcher (again). *)
Definition is_done (w : world) (tid : nat) : Prop :=
  exists t, tasks w !! tid = Some t /\ done t = true.

(** The world after the calls [cs] have been issued, and nothing else. *)
Definition extended (cs : list call) (w : world) : world :=
  {| pending := pending w; timers := timers w; send_locks := send_locks w;
     tasks := tasks w; calls := calls w ++ cs; script := drop (length cs) (script w) |}.

(** The same module state facing other platform outcomes. *)
Definition set_script (outcomes : list (option string)) (w : world) : world :=
  {| pending := pending w; timers := timers w; send_locks := send_locks w;
     tasks := tasks w; calls := calls w; script := outcomes |}.

(** ** Sample data for running the model *)

Definition sample_item (n : nat) : item :=
  {| typ := if Nat.even n then "photo" else "video";
     file_id := "file" +:+ pretty n;
     caption := Some ("caption" +:+ pretty n) |}.

(** A world where user [user_id] has [n] items queued, a sleeping timer
    (task 0, for chat [chat_id]) and the platform outcomes [outcomes]. *)
Definition sample_world (user_id chat_id : Z) (n : nat) (outcomes : list (option string)) : world :=
  {| pending := {[user_id := sample_item <$> seq 0 n]};
     timers := {[user_id := 0%nat]};
     send_locks := ∅;
     tasks := [Task user_id chat_id Sleeping];
     calls := [];
     script := outcomes |}.

Definition sample_config (threshold : Z) : config :=
  {| API_ID := 123456; API_HASH := "your_api_hash"; BOT_TOKEN := "12345:token";
     AUTO_SEND_THRESHOLD := threshold; AUTO_SEND_DELAY := 3%float |}.

(** [str] on the default delay. *)
Definition sample_str_float (d : float) : string := "3.0".

Definition photo_message (user_id chat_id id : Z) (f : string) (cap : option string) : message :=
  {| from_user := user_id; chat := chat_id; message_id := id; photo := Some f;
     video := None; animation := None; doc := None; msg_caption := cap |}.

(** A text message, as the command handlers receive it. *)
Definition command_message (user_id chat_id id : Z) : message :=
  {| from_user := user_id; chat := chat_id; message_id := id; photo := None;
     video := None; animation := None; doc := None; msg_caption := None |}.

(** User 7 sends [n] captioned photos in a row. *)
Definition photos (n : nat) : list event :=
  (fun k => NewMedia (photo_message 7 70 (Z.of_nat k) ("p" +:+ pretty k)
                        (Some ("c" +:+ pretty k)))) <$> seq 0 n.

Definition animation_message (user_id chat_id id : Z) (f : string) : message :=
  {| from_user := user_id; chat := chat_id; message_id := id; photo := None;
     video := None; animation := Some f; doc := None; msg_caption := None |}.

Definition document_message (user_id chat_id id : Z) (f : string) (mime : option string) : message :=
  {| from_user := user_id; chat := chat_id; message_id := id; photo := None;
     video := None; animation := None; doc := Some (Document f mime);
     msg_caption := None |}.

(** ** Vocabulary of the further properties *)

(** The file ids that a call hands to the platform as media, in order. *)
Definition call_files (c : call) : list string :=
  match c with
  | send_photo _ f _ | send_video _ f _ => [f]
  | send_media_group _ media => media_file <$> media
  | _ => []
  end.

Definition media_files (cs : list call) : list string := flat_map call_files cs.

(** [n] runs of the dispatcher for one user, one after the other. *)
Fixpoint dispatch_n (n : nat) (user_id chat_id : Z) (w : world) : world :=
  match n with
  | O => w
  | S k => dispatch_n k user_id chat_id (snd (send_album_for_user user_id chat_id w))
  end.

(** The user's timer handle points to a task that is still sleeping. *)
Definition live (w : world) (user_id : Z) : Prop :=
  exists tid chat_id, timers w !! user_id = Some tid /\
                      tasks w !! tid = Some (Task user_id chat_id Sleeping).

(** How handles, tasks and queues hang together between two events: a
    sleeping task is the one its user's handle points to; no task is in the
    middle of a run; a handle points to a task of its own user; and a user
    has an entry exactly when that user has a live timer. *)
Definition timers_inv (w : world) : Prop :=
  (forall tid t, tasks w !! tid = Some t -> state t = Sleeping ->
                 timers w !! task_user t = Some tid) /\
  (forall tid t, tasks w !! tid = Some t -> state t <> Running) /\
  (forall u tid, timers w !! u = Some tid ->
                 exists t, tasks w !! tid = Some t /\ task_user t = u) /\
  (forall u, is_Some (pending w !! u) <-> live w u).

(** The part of [timers_inv] that also holds in the middle of a handler:
    a task that is not done is the one its user's handle points to, and a
    handle points to a task of its own user. *)
Definition handles_inv (w : world) : Prop :=
  (forall tid t, tasks w !! tid = Some t -> done t = false ->
                 timers w !! task_user t = Some tid) /\
  (forall u tid, timers w !! u = Some tid ->
                 exists t, tasks w !! tid = Some t /\ task_user t = u).

Definition no_running (w : world) : Prop :=
  forall tid t, tasks w !! tid = Some t -> state t <> Running.

(** The only task that may be running is the one [user_id]'s handle
    points to (the timer task that called the dispatcher). *)
Definition running_only_for (user_id : Z) (w : world) : Prop :=
  forall tid t, tasks w !! tid = Some t -> state t = Running ->
                timers w !! user_id = Some tid.

(** [task.cancel()] unless [task.done()], as [_cancel_timer] applies it. *)
Definition cancel_if_live (t : task) : task := if done t then t else cancel t.

(** Handler runs for [user_id] leave the entries and handles of the other
    users alone. *)
Definition same_elsewhere (user_id : Z) (w w' : world) : Prop :=
  forall u, u <> user_id ->
    pending w' !! u = pending w !! u /\ timers w' !! u = timers w !! u.

(** The user of an event: the sender of a message, the owner of a task. *)
Definition event_user (w : world) (ev : event) : option Z :=
  match ev with
  | NewMedia m | SendAlbumCommand m | CancelCommand m | StatusCommand m
  | StartCommand m => Some (from_user m)
  | TimerElapsed tid => task_user <$> tasks w !! tid
  end.

(** ** Facts about the monad and the platform *)

Lemma platform_world c w : snd (platform c w) = logged c w.
Proof. unfold platform. destruct (script w) as [|[e|] s]; reflexivity. Qed.

Lemma _make_input_media_ok it b :
  item_ok it ->
  exists m, _make_input_media it b = Ok m /\ media_typ m = typ it /\
            media_file m = file_id it /\
            media_caption m = (if b then caption it else None).
Proof.
  intros [H|H]; unfold _make_input_media; rewrite H; simpl; eauto.
Qed.

Lemma build_media_ok l : forall i,
  Forall item_ok l ->
  exists media, build_media i l = Ok media /\ length media = length l /\
    forall j it, l !! j = Some it ->
      exists m, media !! j = Some m /\ media_typ m = typ it /\
                media_file m = file_id it /\
                media_caption m = (if Nat.eqb (i + j) 0 then caption it else None).
Proof.
  induction l as [|x l IH]; intros i Hok.
  - exists []. repeat split; auto. intros j it Hj. discriminate.
  - inversion Hok as [|? ? Hx Hl]; subst.
    destruct (_make_input_media_ok x (Nat.eqb i 0) Hx) as (m & Hm & Ht & Hf & Hc).
    destruct (IH (S i) Hl) as (ms & Hms & Hlen & Hall).
    exists (m :: ms). simpl. rewrite Hm, Hms. repeat split; [simpl; lia|].
    intros [|j] it Hj; simpl in Hj.
    + inversion Hj; subst. exists m. rewrite Nat.add_0_r. auto.
    + destruct (Hall j it Hj) as (m' & ? & ? & ? & Hc').
      exists m'. replace (i + S j)%nat with (S i + j)%nat by lia. auto.
Qed.

Lemma platform_eq c w :
  platform c w =
  (match script w with Some e :: _ => Raise (RPCError e) | _ => Ok tt end, logged c w).
Proof. unfold platform. destruct (script w) as [|[e|] s]; reflexivity. Qed.

Lemma guarded_platform c w :
  try_except (platform c) (fun _ => ret tt) w = (Ok tt, logged c w).
Proof.
  unfold try_except. rewrite platform_eq.
  destruct (script w) as [|[e|] s]; reflexivity.
Qed.

(** A platform call under the [try] of the dispatcher. *)
Lemma guarded_send chat_id c w :
  try_except (platform c)
    (fun e => try_except
       (platform (send_message chat_id ("Failed to send media: `" +:+ exn_str e +:+ "`")))
       (fun _ => ret tt)) w
  = (Ok tt, after_attempt chat_id c w).
Proof.
  unfold try_except at 1. rewrite platform_eq. unfold after_attempt.
  destruct (script w) as [|[e|] s]; try reflexivity.
  cbn [is_Exception]. apply guarded_platform.
Qed.

Lemma try_send_single chat_id it w :
  item_ok it ->
  try_send chat_id [it] w =
  (Ok tt, after_attempt chat_id
            (if String.eqb (typ it) "photo"
             then send_photo chat_id (file_id it) (caption it)
             else send_video chat_id (file_id it) (caption it)) w).
Proof.
  intros Hok. unfold try_send, send_single.
  destruct Hok as [H|H]; rewrite H; cbn [String.eqb Ascii.eqb Bool.eqb];
    apply guarded_send.
Qed.

Lemma try_send_group chat_id to_send media w :
  length to_send <> 1%nat ->
  build_media 0 to_send = Ok media ->
  try_send chat_id to_send w =
  (Ok tt, after_attempt chat_id (send_media_group chat_id media) w).
Proof.
  intros Hlen Hm.
  assert (try_send chat_id to_send =
          try_except (send_group chat_id to_send)
            (fun e => try_except
               (platform (send_message chat_id ("Failed to send media: `" +:+ exn_str e +:+ "`")))
               (fun _ => ret tt))) as ->.
  { unfold try_send. destruct to_send as [|x [|y l]]; try reflexivity.
    simpl in Hlen. lia. }
  rewrite <- (guarded_send chat_id (send_media_group chat_id media) w).
  unfold try_except at 1 3, send_group, bind, lift. rewrite Hm. reflexivity.
Qed.

Lemma extended_nil w : extended [] w = w.
Proof. destruct w. unfold extended. simpl. by rewrite app_nil_r. Qed.

Lemma logged_extended c w : logged c w = extended [c] w.
Proof. unfold logged, extended. simpl. by destruct (script w). Qed.

Lemma extended_app cs1 cs2 w : extended cs2 (extended cs1 w) = extended (cs1 ++ cs2) w.
Proof.
  unfold extended. simpl. rewrite <- app_assoc, drop_drop, length_app.
  reflexivity.
Qed.

Lemma after_attempt_extended chat_id c w :
  after_attempt chat_id c w =
  extended (c :: match script w with
                 | Some e :: _ => [failure_note chat_id e]
                 | _ => []
                 end) w.
Proof.
  unfold after_attempt.
  destruct (script w) as [|[e|] s] eqn:E; rewrite ?logged_extended; try reflexivity.
  by rewrite extended_app.
Qed.

(** The [try] statement never lets an exception out, and touches nothing
    but the platform. *)
Lemma try_send_frame chat_id to_send w :
  exists cs, try_send chat_id to_send w = (Ok tt, extended cs w).
Proof.
  destruct (decide (length to_send = 1%nat)) as [H1|H1].
  - destruct to_send as [|it [|? ?]]; try discriminate.
    unfold try_send, send_single.
    destruct (String.eqb (typ it) "photo");
      [|destruct (String.eqb (typ it) "video")];
      rewrite ?guarded_send, ?after_attempt_extended; eauto.
    exists []. by rewrite extended_nil.
  - destruct (build_media 0 to_send) as [media|e] eqn:Hm.
    + rewrite (try_send_group _ _ _ _ H1 Hm), after_attempt_extended. eauto.
    + assert (is_Exception e = true) as He.
      { clear H1. revert Hm. generalize 0%nat. induction to_send as [|x l IH]; intros i; simpl; [discriminate|].
        unfold _make_input_media.
        destruct (String.eqb (typ x) "photo"); [|destruct (String.eqb (typ x) "video")];
          try (destruct (build_media (S i) l) eqn:E; [discriminate|];
               intros [= <-]; by apply (IH (S i))).
        by intros [= <-]. }
      exists [send_message chat_id ("Failed to send media: `" +:+ exn_str e +:+ "`")].
      rewrite <- logged_extended, <- guarded_platform.
      assert (try_send chat_id to_send =
          try_except (send_group chat_id to_send)
            (fun e => try_except
               (platform (send_message chat_id ("Failed to send media: `" +:+ exn_str e +:+ "`")))
               (fun _ => ret tt))) as ->.
      { unfold try_send. destruct to_send as [|x [|y l]]; try reflexivity.
        simpl in H1. lia. }
      unfold try_except at 1, send_group, bind, lift. rewrite Hm, He. reflexivity.
Qed.

(** ** Facts about the timers *)

Lemma _cancel_timer_spec user_id w :
  exists w', _cancel_timer user_id w = (Ok tt, w') /\
    pending w' = pending w /\ send_locks w' = send_locks w /\
    calls w' = calls w /\ script w' = script w /\
    timers w' = delete user_id (timers w) /\
    length (tasks w') = length (tasks w) /\
    (forall tid t, timers w !! user_id = Some tid -> tasks w !! tid = Some t ->
                   is_done w' tid) /\
    (forall tid, timers w !! user_id <> Some tid -> tasks w' !! tid = tasks w !! tid).
Proof.
  unfold _cancel_timer, modify. eexists. split; [reflexivity|].
  destruct (timers w !! user_id) as [tid|] eqn:Ht.
  - destruct (tasks w !! tid) as [t|] eqn:Hk.
    + destruct (done t) eqn:Hd; simpl.
      * repeat split; auto.
        intros tid' t' [= <-] Hk'. exists t. by rewrite <- Hk.
      * repeat split; auto.
        -- by rewrite length_insert.
        -- intros tid' t' [= <-] Hk'. exists (cancel t). split; [|reflexivity].
           apply list_lookup_insert_eq. by eapply lookup_lt_Some.
        -- intros tid' Hne. apply list_lookup_insert_ne. congruence.
    + simpl. repeat split; auto. intros tid' t' [= <-] Hk'. congruence.
  - repeat split; auto.
    + symmetry. by apply delete_id.
    + intros tid t Hn. discriminate.
Qed.

Lemma _start_timer_spec user_id chat_id w :
  exists w', _start_timer user_id chat_id w = (Ok tt, w') /\
    pending w' = pending w /\ send_locks w' = send_locks w /\
    calls w' = calls w /\ script w' = script w /\
    timers w' = <[user_id := length (tasks w)]> (timers w) /\
    tasks w' !! length (tasks w) = Some (Task user_id chat_id Sleeping) /\
    length (tasks w') = S (length (tasks w)) /\
    (forall tid t, timers w !! user_id = Some tid -> tasks w !! tid = Some t ->
                   is_done w' tid) /\
    (forall tid, timers w !! user_id <> Some tid -> (tid < length (tasks w))%nat ->
                 tasks w' !! tid = tasks w !! tid).
Proof.
  destruct (_cancel_timer_spec user_id w)
    as (w1 & E & Hp & Hl & Hc & Hs & Ht & Hlen & Hdone & Hother).
  unfold _start_timer, bind, modify. rewrite E. eexists. split; [reflexivity|].
  simpl. rewrite Hlen, Ht. repeat split; auto.
  - by rewrite insert_delete_eq.
  - rewrite lookup_app_r by lia. by rewrite Hlen, Nat.sub_diag.
  - rewrite length_app. simpl. lia.
  - intros tid t H1 H2. destruct (Hdone tid t H1 H2) as (t' & Ht' & Hd).
    exists t'. split; [|done]. simpl. rewrite lookup_app_l; [done|]. by eapply lookup_lt_Some.
  - intros tid Hne Hlt. rewrite lookup_app_l by lia. by apply Hother.
Qed.

(** ** Facts about the dispatcher *)

Lemma handle_state_spec user_id chat_id remaining w :
  exists w', handle_state user_id chat_id remaining w = (Ok tt, w') /\
    send_locks w' = send_locks w /\ calls w' = calls w /\ script w' = script w /\
    pending w' = (if decide (remaining = []) then delete user_id (pending w)
                  else <[user_id := remaining]> (pending w)) /\
    timers w' = (if decide (remaining = []) then delete user_id (timers w)
                 else <[user_id := length (tasks w)]> (timers w)) /\
    (remaining <> [] -> armed w' user_id chat_id) /\
    (forall tid t, timers w !! user_id = Some tid -> tasks w !! tid = Some t ->
                   is_done w' tid).
Proof.
  destruct remaining as [|x l]; unfold handle_state, bind, modify.
  - destruct (_cancel_timer_spec user_id (set_pending (delete user_id) w))
      as (w' & E & Hp & Hl & Hc & Hs & Ht & Hlen & Hdone & Hother).
    rewrite E. exists w'. repeat split; auto. congruence.
  - destruct (_start_timer_spec user_id chat_id
                (set_pending (fun p => <[user_id := x :: l]> p) w))
      as (w' & E & Hp & Hl & Hc & Hs & Ht & Hnew & Hlen & Hdone & Hother).
    rewrite E. exists w'. repeat split; auto.
    intros _. exists (length (tasks w)). split; [|exact Hnew].
    rewrite Ht. apply lookup_insert_eq.
Qed.

Lemma send_album_for_user_unfold user_id chat_id w items :
  pending w !! user_id = Some items -> items <> [] ->
  send_album_for_user user_id chat_id w =
  handle_state user_id chat_id (drop 10 items)
    (snd (try_send chat_id (take 10 items)
            (set_send_locks (fun s => {[user_id]} ∪ s) w))).
Proof.
  intros Hq Hne. unfold send_album_for_user, with_lock, bind, gets. simpl.
  rewrite Hq. simpl. destruct items as [|x l]; [done|].
  destruct (try_send_frame chat_id (take 10 (x :: l))
              (set_send_locks (fun s => {[user_id]} ∪ s) w)) as (cs & E).
  rewrite E. reflexivity.
Qed.

(** The empty-queue path, line 84. *)
Lemma send_album_for_user_empty user_id chat_id w :
  default [] (pending w !! user_id) = [] ->
  send_album_for_user user_id chat_id w =
  (Ok tt, set_send_locks (fun s => {[user_id]} ∪ s) w).
Proof.
  intros Hq. unfold send_album_for_user, with_lock, bind, gets. simpl.
  rewrite Hq. reflexivity.
Qed.

(** Everything one dispatch of a non-empty queue does, in one place:
    [wt] is the world after the guarded send. *)
Lemma dispatch_spec user_id chat_id w items :
  pending w !! user_id = Some items -> items <> [] ->
  let wt := snd (try_send chat_id (take 10 items)
                   (set_send_locks (fun s => {[user_id]} ∪ s) w)) in
  exists w', send_album_for_user user_id chat_id w = (Ok tt, w') /\
    calls w' = calls wt /\ script w' = script wt /\
    send_locks w' = {[user_id]} ∪ send_locks w /\
    pending w' = (if decide (drop 10 items = []) then delete user_id (pending w)
                  else <[user_id := drop 10 items]> (pending w)) /\
    timers w' = (if decide (drop 10 items = []) then delete user_id (timers w)
                 else <[user_id := length (tasks w)]> (timers w)) /\
    (drop 10 items <> [] -> armed w' user_id chat_id) /\
    (forall tid t, timers w !! user_id = Some tid -> tasks w !! tid = Some t ->
                   is_done w' tid).
Proof.
  intros Hq Hne wt. rewrite (send_album_for_user_unfold _ _ _ _ Hq Hne). fold wt.
  destruct (try_send_frame chat_id (take 10 items)
              (set_send_locks (fun s => {[user_id]} ∪ s) w)) as (cs & E).
  assert (pending wt = pending w /\ timers wt = timers w /\ tasks wt = tasks w /\
          send_locks wt = {[user_id]} ∪ send_locks w) as (Hp & Ht & Hk & Hl).
  { unfold wt. rewrite E. simpl. auto. }
  destruct (handle_state_spec user_id chat_id (drop 10 items) wt)
    as (w' & E' & Hl' & Hc' & Hs' & Hp' & Ht' & Harm & Hdone).
  exists w'. rewrite <- Hp, <- Ht, <- Hk, <- Hl. repeat split; auto.
Qed.

Lemma take_min_length {A} (l : list A) (n : nat) :
  take (Nat.min n (length l)) l = take n l.
Proof.
  destruct (Nat.le_ge_cases n (length l)) as [H|H].
  - by rewrite Nat.min_l.
  - rewrite Nat.min_r by done. by rewrite !take_ge.
Qed.

Lemma after_attempt_calls chat_id c w :
  exists notes, calls (after_attempt chat_id c w) = calls w ++ c :: notes /\
    (notes = [] \/ exists e, notes = [failure_note chat_id e]) /\
    (forall e s, script w = Some e :: s -> notes = [failure_note chat_id e]) /\
    (forall s, script w = None :: s -> notes = []) /\
    (script w = [] -> notes = []).
Proof.
  rewrite after_attempt_extended. simpl.
  destruct (script w) as [|[e|] s]; eexists; (split; [reflexivity|]);
    repeat split; eauto; try discriminate; intros; congruence.
Qed.

(** The call that opens the dispatch of a batch of well-formed items. *)
Lemma try_send_calls chat_id batch w :
  batch <> [] -> Forall item_ok batch ->
  exists c notes,
    calls (snd (try_send chat_id batch w)) = calls w ++ c :: notes /\
    (notes = [] \/ exists e, notes = [failure_note chat_id e]) /\
    (forall e s, script w = Some e :: s -> notes = [failure_note chat_id e]) /\
    ((exists it, batch = [it] /\
        ((typ it = "photo" /\ c = send_photo chat_id (file_id it) (caption it)) \/
         (typ it = "video" /\ c = send_video chat_id (file_id it) (caption it))))
     \/
     ((2 <= length batch)%nat /\
      exists media, c = send_media_group chat_id media /\ length media = length batch /\
        forall i it, batch !! i = Some it ->
          exists m, media !! i = Some m /\ media_typ m = typ it /\
                    media_file m = file_id it /\
                    media_caption m = if Nat.eqb i 0 then caption it else None)).
Proof.
  intros Hne Hok.
  destruct (decide (length batch = 1%nat)) as [H1|H1].
  - destruct batch as [|it [|? ?]]; try discriminate.
    inversion Hok as [|? ? Hit _]; subst.
    rewrite (try_send_single _ _ _ Hit). simpl.
    destruct (after_attempt_calls chat_id
                (if String.eqb (typ it) "photo"
                 then send_photo chat_id (file_id it) (caption it)
                 else send_video chat_id (file_id it) (caption it)) w)
      as (notes & Hc & Hn & Hf & _).
    eexists _, notes. split; [exact Hc|]. split; [exact Hn|]. split; [exact Hf|].
    left. exists it. split; [done|].
    destruct Hit as [H|H]; rewrite H; simpl; auto.
  - destruct (build_media_ok batch 0 Hok) as (media & Hm & Hlen & Hall).
    rewrite (try_send_group _ _ _ _ H1 Hm). simpl.
    destruct (after_attempt_calls chat_id (send_media_group chat_id media) w)
      as (notes & Hc & Hn & Hf & _).
    eexists _, notes. split; [exact Hc|]. split; [exact Hn|]. split; [exact Hf|].
    right. split.
    + destruct batch as [|? [|? ?]]; simpl in *; try done; lia.
    + exists media. repeat split; auto.
Qed.

(** ** C1: the batch and the send policy *)

(** C1. A dispatch on a non-empty queue of well-formed items takes the
    first [min 10 (length items)] items as its batch and opens with exactly
    one media call for it: a batch of one goes through [send_photo] or
    [send_video], chosen by the item's type, with the item's caption; a
    batch of two to ten goes through one [send_media_group] whose entries
    follow the batch in order, the entry at index 0 carrying its item's
    caption and every later entry none.  The only call that may follow is
    the report of a failed send. *)
Theorem dispatch_batch_policy (w : world) (user_id chat_id : Z) (items : list item) :
  pending w !! user_id = Some items -> items <> [] -> Forall item_ok items ->
  let batch := take (Nat.min 10 (length items)) items in
  exists c notes,
    calls (snd (send_album_for_user user_id chat_id w)) = calls w ++ c :: notes /\
    (notes = [] \/ exists e, notes = [failure_note chat_id e]) /\
    ((exists it, batch = [it] /\
        ((typ it = "photo" /\ c = send_photo chat_id (file_id it) (caption it)) \/
         (typ it = "video" /\ c = send_video chat_id (file_id it) (caption it))))
     \/
     ((2 <= length batch <= 10)%nat /\
      exists media, c = send_media_group chat_id media /\
        length media = length batch /\
        forall i it, batch !! i = Some it ->
          exists m, media !! i = Some m /\ media_typ m = typ it /\
                    media_file m = file_id it /\
                    media_caption m = if Nat.eqb i 0 then caption it else None)).
Proof.
  intros Hq Hne Hok batch. unfold batch. rewrite take_min_length.
  destruct (dispatch_spec user_id chat_id w items Hq Hne)
    as (w' & E & Hc & _). rewrite E. simpl. rewrite Hc.
  assert (take 10 items <> []) as Hb by (destruct items; [done|discriminate]).
  assert (Forall item_ok (take 10 items)) as Hbok by (by apply Forall_take).
  destruct (try_send_calls chat_id (take 10 items)
              (set_send_locks (fun s => {[user_id]} ∪ s) w) Hb Hbok)
    as (c & notes & Hcalls & Hn & _ & Hpol).
  exists c, notes. split; [exact Hcalls|]. split; [exact Hn|].
  destruct Hpol as [Hs|(H2 & Hg)]; [by left|right].
  split; [|exact Hg]. split; [exact H2|]. rewrite length_take. lia.
Qed.

Lemma sample_items_ok n : Forall item_ok (sample_item <$> seq 0 n).
Proof.
  apply Forall_fmap, Forall_forall. intros k _. unfold item_ok, sample_item; simpl.
  destruct (Nat.even k); auto.
Qed.

Lemma dispatch_batch_policy_witness :
  exists c notes,
    calls (snd (send_album_for_user 7 70 (sample_world 7 70 3 []))) = c :: notes.
Proof.
  destruct (dispatch_batch_policy (sample_world 7 70 3 []) 7 70 (sample_item <$> seq 0 3))
    as (c & notes & H & _).
  - reflexivity.
  - discriminate.
  - apply sample_items_ok.
  - exists c, notes. exact H.
Defined.

(** The scenario of twelve photos under threshold 10: the tenth photo
    triggers a group of ten, the last two leave with the timer (task 10). *)
Example scenario_twelve_photos :
  calls (run (sample_config 10) sample_str_float (initial [])
           (photos 12 ++ [TimerElapsed 10]))
  = [reply_text 70 0 (album_started (sample_config 10) sample_str_float) (Some true);
     send_media_group 70
       (InputMediaPhoto "p0" (Some "c0") ::
        ((fun k => InputMediaPhoto ("p" +:+ pretty k) None) <$> seq 1 9));
     reply_text 70 10 (album_started (sample_config 10) sample_str_float) (Some true);
     send_media_group 70 [InputMediaPhoto "p10" (Some "c10"); InputMediaPhoto "p11" None]].
Proof. vm_compute. reflexivity. Qed.

(** ** C2: overflow is kept and the timer re-armed; a drained queue is removed *)

(** C2. With more than ten well-formed items pending, a dispatch sends one
    group of exactly ten entries, one per item of the first ten in order;
    the other [length items - 10] items stay queued in their order; the
    user's timer handle is a new task that sleeps for this user and chat,
    and the task held before is done.  With one to ten items pending, the
    dispatch leaves the user with no entry and no timer handle, and the
    task held before is done. *)
Theorem dispatch_overflow_or_drain (w : world) (user_id chat_id : Z) (items : list item) :
  pending w !! user_id = Some items -> items <> [] -> Forall item_ok items ->
  let w' := snd (send_album_for_user user_id chat_id w) in
  ((10 < length items)%nat ->
     (exists media notes,
        calls w' = calls w ++ send_media_group chat_id media :: notes /\
        length media = 10%nat /\
        (forall i it, take 10 items !! i = Some it ->
           exists m, media !! i = Some m /\ media_typ m = typ it /\
                     media_file m = file_id it) /\
        (notes = [] \/ exists e, notes = [failure_note chat_id e])) /\
     pending w' !! user_id = Some (drop 10 items) /\
     length (drop 10 items) = (length items - 10)%nat /\
     timers w' !! user_id = Some (length (tasks w)) /\
     tasks w' !! length (tasks w) = Some (Task user_id chat_id Sleeping) /\
     (forall tid t, timers w !! user_id = Some tid -> tasks w !! tid = Some t ->
                    is_done w' tid))
  /\
  ((length items <= 10)%nat ->
     pending w' !! user_id = None /\
     timers w' !! user_id = None /\
     (forall tid t, timers w !! user_id = Some tid -> tasks w !! tid = Some t ->
                    is_done w' tid)).
Proof.
  intros Hq Hne Hok w'.
  destruct (dispatch_spec user_id chat_id w items Hq Hne)
    as (w1 & E & Hc & Hs & Hl & Hp & Ht & Harm & Hdone).
  assert (w' = w1) as -> by (unfold w'; by rewrite E).
  split; intros Hlen.
  - assert (drop 10 items <> []) as Hd.
    { intros H0. apply (f_equal length) in H0. rewrite length_drop in H0.
      simpl in H0. lia. }
    rewrite decide_False in Hp by done. rewrite decide_False in Ht by done.
    assert (take 10 items <> []) as Hb by (destruct items; [done|discriminate]).
    destruct (try_send_calls chat_id (take 10 items)
                (set_send_locks (fun s => {[user_id]} ∪ s) w) Hb
                (Forall_take _ _ _ Hok))
      as (c & notes & Hcalls & Hn & _ & Hpol).
    assert (length (take 10 items) = 10%nat) as H10 by (rewrite length_take; lia).
    repeat split.
    + destruct Hpol as [(it & Hit & _)|(_ & media & -> & Hm & Hall)].
      { rewrite Hit in H10. discriminate. }
      exists media, notes. rewrite Hc. split; [exact Hcalls|].
      split; [congruence|]. split; [|exact Hn].
      intros i it Hi. destruct (Hall i it Hi) as (m & ? & ? & ? & _). eauto.
    + rewrite Hp. apply lookup_insert_eq.
    + apply length_drop.
    + rewrite Ht. apply lookup_insert_eq.
    + destruct (Harm Hd) as (tid & H1 & H2).
      rewrite Ht, lookup_insert_eq in H1. by inversion H1; subst.
    + exact Hdone.
  - assert (drop 10 items = []) as Hd by (by apply drop_ge).
    rewrite decide_True in Hp by done. rewrite decide_True in Ht by done.
    repeat split.
    + rewrite Hp. apply lookup_delete_eq.
    + rewrite Ht. apply lookup_delete_eq.
    + exact Hdone.
Qed.

Lemma dispatch_overflow_or_drain_witness :
  pending (snd (send_album_for_user 7 70 (sample_world 7 70 12 []))) !! 7
  = Some (drop 10 (sample_item <$> seq 0 12)) /\
  pending (snd (send_album_for_user 7 70 (sample_world 7 70 10 []))) !! 7 = None.
Proof.
  split.
  - refine (proj1 (proj2 (proj1
      (dispatch_overflow_or_drain (sample_world 7 70 12 []) 7 70
         (sample_item <$> seq 0 12) _ _ _) _))).
    + reflexivity.
    + discriminate.
    + apply sample_items_ok.
    + simpl. lia.
  - refine (proj1 (proj2
      (dispatch_overflow_or_drain (sample_world 7 70 10 []) 7 70
         (sample_item <$> seq 0 10) _ _ _) _)).
    + reflexivity.
    + discriminate.
    + apply sample_items_ok.
    + simpl. lia.
Defined.

(** ** C3: a failed send *)

Lemma send_album_for_user_never_raises user_id chat_id w :
  fst (send_album_for_user user_id chat_id w) = Ok tt.
Proof.
  destruct (default [] (pending w !! user_id)) as [|x l] eqn:Hq.
  - by rewrite send_album_for_user_empty.
  - assert (pending w !! user_id = Some (x :: l)) as Hq'.
    { destruct (pending w !! user_id); simpl in Hq; congruence. }
    destruct (dispatch_spec user_id chat_id w (x :: l) Hq') as (w' & E & _); [done|].
    by rewrite E.
Qed.

(** C3. When the media call of a dispatch raises (text [e]), whatever the
    later outcomes [s] are - so also when the report itself raises -
    [send_album_for_user] returns normally; the platform saw the media call
    and then the report carrying [e], and nothing more; the user's queue
    afterwards is exactly the overflow [drop 10 items] (no item of the batch
    is back in it), the entry being removed when the overflow is empty; and
    the registry is the one a run without any failure leaves. *)
Theorem dispatch_send_failure (w : world) (user_id chat_id : Z) (items : list item)
    (e : string) (s : list (option string)) :
  pending w !! user_id = Some items -> items <> [] -> Forall item_ok items ->
  script w = Some e :: s ->
  let r := send_album_for_user user_id chat_id w in
  fst r = Ok tt /\
  (exists c, calls (snd r) = calls w ++ [c; failure_note chat_id e]) /\
  default [] (pending (snd r) !! user_id) = drop 10 items /\
  pending (snd r) = (if decide (drop 10 items = []) then delete user_id (pending w)
                     else <[user_id := drop 10 items]> (pending w)) /\
  pending (snd r) = pending (snd (send_album_for_user user_id chat_id (set_script [] w))).
Proof.
  intros Hq Hne Hok Hs r.
  split; [apply send_album_for_user_never_raises|].
  destruct (dispatch_spec user_id chat_id w items Hq Hne)
    as (w1 & E & Hc & _ & _ & Hp & _).
  destruct (dispatch_spec user_id chat_id (set_script [] w) items Hq Hne)
    as (w2 & E2 & _ & _ & _ & Hp2 & _).
  unfold r. rewrite E, E2. simpl. simpl in Hp2.
  assert (take 10 items <> []) as Hb by (destruct items; [done|discriminate]).
  destruct (try_send_calls chat_id (take 10 items)
              (set_send_locks (fun s => {[user_id]} ∪ s) w) Hb
              (Forall_take _ _ _ Hok))
    as (c & notes & Hcalls & _ & Hf & _).
  rewrite (Hf e s Hs) in Hcalls.
  repeat split.
  - exists c. by rewrite Hc, Hcalls.
  - rewrite Hp. destruct (decide (drop 10 items = [])) as [Hd|Hd].
    + by rewrite lookup_delete_eq, Hd.
    + by rewrite lookup_insert_eq.
  - exact Hp.
  - by rewrite Hp, Hp2.
Qed.

Lemma dispatch_send_failure_witness :
  fst (send_album_for_user 7 70 (sample_world 7 70 12 [Some "flood"; Some "down"])) = Ok tt.
Proof.
  refine (proj1 (dispatch_send_failure
    (sample_world 7 70 12 [Some "flood"; Some "down"]) 7 70
    (sample_item <$> seq 0 12) "flood" [Some "down"] _ _ _ _)).
  - reflexivity.
  - discriminate.
  - apply sample_items_ok.
  - reflexivity.
Defined.

(** ** C5: dispatching an empty queue *)

(** C5. When the user has nothing pending (no entry, or an empty one),
    [send_album_for_user] returns normally having made no platform call
    and having left [pending], [timers] and the tasks as they were (only
    the user's lock entry is created); and a timer task of that user whose
    sleep runs out returns normally too, makes no platform call, does not
    even reach the dispatcher, and leaves [pending] and [timers] as they
    were, the task ending finished. *)
Theorem empty_queue_dispatch_noop (w : world) (user_id chat_id : Z) :
  default [] (pending w !! user_id) = [] ->
  (let r := send_album_for_user user_id chat_id w in
   fst r = Ok tt /\ calls (snd r) = calls w /\ script (snd r) = script w /\
   pending (snd r) = pending w /\ timers (snd r) = timers w /\
   tasks (snd r) = tasks w /\
   send_locks (snd r) = {[user_id]} ∪ send_locks w)
  /\
  (forall tid, tasks w !! tid = Some (Task user_id chat_id Sleeping) ->
     let r := _wait_and_send tid w in
     fst r = Ok tt /\ calls (snd r) = calls w /\ script (snd r) = script w /\
     pending (snd r) = pending w /\ timers (snd r) = timers w /\
     send_locks (snd r) = send_locks w /\
     tasks (snd r) = <[tid := Task user_id chat_id Finished]> (tasks w)).
Proof.
  intros Hq. split.
  - rewrite send_album_for_user_empty by done. simpl. auto 10.
  - intros tid Hk. unfold _wait_and_send. rewrite Hk.
    unfold bind, modify, try_except, gets, ret. simpl.
    assert (tid < length (tasks w))%nat as Hlt by (by eapply lookup_lt_Some).
    destruct (pending w !! user_id) as [[|x l]|] eqn:Hp; simpl in Hq; try discriminate;
      simpl; rewrite list_lookup_insert_eq by done; simpl;
      rewrite list_insert_insert_eq; auto 10.
Qed.

Lemma empty_queue_dispatch_noop_witness :
  calls (snd (send_album_for_user 7 70 (sample_world 7 70 0 [Some "never used"]))) = [] /\
  calls (snd (_wait_and_send 0 (sample_world 7 70 0 [Some "never used"]))) = [].
Proof.
  destruct (empty_queue_dispatch_noop (sample_world 7 70 0 [Some "never used"]) 7 70)
    as [(_ & H1 & _) H2].
  - reflexivity.
  - split; [exact H1|]. apply (H2 0%nat). reflexivity.
Defined.

(** ** Facts about [collect_media] *)

Section HandlerFacts.

Variable cfg : config.
Variable str_float : float -> string.

(** Step 2 and 3 of [collect_media] for a classified message: the item goes
    to the back of the user's queue, then the threshold decides. *)
Lemma collect_media_detected (m : message) (w : world) (t f : string) :
  detect_media_type m = Detected t f ->
  let u := from_user m in
  let it := Item t f (caption_or_None m) in
  let q := default [] (pending w !! u) ++ [it] in
  let w0 := pending_append u it w in
  pending w0 = <[u := q]> (pending w) /\
  collect_media cfg str_float m w =
    if Z.of_nat (length q) >=? AUTO_SEND_THRESHOLD cfg
    then send_album_for_user u (chat m) (snd (_cancel_timer u w0))
    else (if Nat.eqb (length q) 1
          then platform (reply_text (chat m) (message_id m)
                           (album_started cfg str_float) (Some true))
          else ret tt) (snd (_start_timer u (chat m) w0)).
Proof.
  intros Hd u it q w0. split; [reflexivity|].
  unfold collect_media. rewrite Hd. fold u it.
  unfold bind at 1, modify at 1. fold w0.
  unfold bind at 1, gets.
  assert (default [] (pending w0 !! u) = q) as ->.
  { unfold w0, pending_append. simpl. by rewrite lookup_insert_eq. }
  destruct (Z.of_nat (length q) >=? AUTO_SEND_THRESHOLD cfg).
  - destruct (_cancel_timer_spec u w0) as (w1 & E & _).
    unfold bind. rewrite E. reflexivity.
  - destruct (_start_timer_spec u (chat m) w0) as (w1 & E & _).
    unfold bind. rewrite E. reflexivity.
Qed.

End HandlerFacts.

(** ** C6: threshold or timer *)

(** C6. Let [q] be the user's queue with the new item at its back and
    [total] its length.  If [total] reaches the threshold, [collect_media]
    is a run of the dispatcher, started with no platform call made in
    between, from a world where the queue is [q], the user has no timer
    handle and the task held before is done.  Otherwise the queue is [q],
    the user's timer handle is a new sleeping task for this user and chat,
    the task held before is done, and the platform saw exactly one call,
    the quoted acknowledgment, when [total] is 1 and no call otherwise. *)
Theorem collect_media_threshold_or_timer (cfg : config) (str_float : float -> string)
    (m : message) (w : world) (t f : string) :
  detect_media_type m = Detected t f ->
  let u := from_user m in
  let q := default [] (pending w !! u) ++ [Item t f (caption_or_None m)] in
  let total := length q in
  let r := collect_media cfg str_float m w in
  (AUTO_SEND_THRESHOLD cfg <= Z.of_nat total ->
     exists w1, r = send_album_for_user u (chat m) w1 /\
       pending w1 !! u = Some q /\ timers w1 !! u = None /\
       calls w1 = calls w /\ script w1 = script w /\
       (forall tid k, timers w !! u = Some tid -> tasks w !! tid = Some k ->
                      is_done w1 tid))
  /\
  (Z.of_nat total < AUTO_SEND_THRESHOLD cfg ->
     pending (snd r) !! u = Some q /\
     timers (snd r) !! u = Some (length (tasks w)) /\
     tasks (snd r) !! length (tasks w) = Some (Task u (chat m) Sleeping) /\
     (forall tid k, timers w !! u = Some tid -> tasks w !! tid = Some k ->
                    is_done (snd r) tid) /\
     calls (snd r) =
       calls w ++ (if Nat.eqb total 1
                   then [reply_text (chat m) (message_id m)
                           (album_started cfg str_float) (Some true)]
                   else [])).
Proof.
  intros Hd u q total r.
  destruct (collect_media_detected cfg str_float m w t f Hd) as [Hp0 Hr].
  fold u q in Hp0, Hr. fold r total in Hr.
  set (w0 := pending_append u (Item t f (caption_or_None m)) w) in *.
  split; intros Hth.
  - rewrite (proj2 (Z.geb_le _ _)) in Hr by lia.
    destruct (_cancel_timer_spec u w0)
      as (w1 & E & Hp & _ & Hc & Hs & Ht & _ & Hdone & _).
    rewrite E in Hr. simpl in Hr. exists w1. split; [exact Hr|].
    repeat split; auto.
    + by rewrite Hp, Hp0, lookup_insert_eq.
    + by rewrite Ht, lookup_delete_eq.
  - assert ((Z.of_nat total >=? AUTO_SEND_THRESHOLD cfg) = false) as Hf.
    { destruct (Z.geb_spec (Z.of_nat total) (AUTO_SEND_THRESHOLD cfg)); [lia|done]. }
    rewrite Hf in Hr.
    destruct (_start_timer_spec u (chat m) w0)
      as (w1 & E & Hp & _ & Hc & Hs & Ht & Hnew & _ & Hdone & _).
    rewrite E in Hr. simpl in Hr.
    assert (tasks w0 = tasks w /\ timers w0 = timers w /\ calls w0 = calls w)
      as (Hk0 & Ht0 & Hc0) by done.
    rewrite Hk0 in Hnew, Ht. rewrite Hk0, Ht0 in Hdone. rewrite Hc0 in Hc.
    assert (pending (snd r) = pending w1 /\ timers (snd r) = timers w1 /\
            tasks (snd r) = tasks w1 /\
            calls (snd r) = calls w1 ++
              (if Nat.eqb total 1
               then [reply_text (chat m) (message_id m)
                       (album_started cfg str_float) (Some true)]
               else [])) as (Ep & Et & Ek & Ec).
    { rewrite Hr. destruct (Nat.eqb total 1).
      - rewrite platform_world. by simpl.
      - simpl. by rewrite app_nil_r. }
    split; [by rewrite Ep, Hp, Hp0, lookup_insert_eq|].
    split; [by rewrite Et, Ht, lookup_insert_eq|].
    split; [by rewrite Ek|].
    split; [|by rewrite Ec, Hc].
    intros tid k H1 H2. destruct (Hdone tid k H1 H2) as (k' & Hk' & Hd').
    exists k'. by rewrite Ek.
Qed.

Lemma collect_media_threshold_or_timer_witness :
  calls (snd (collect_media (sample_config 10) sample_str_float
                (photo_message 7 70 1 "p1" (Some "hello")) (initial [])))
  = [reply_text 70 1 (album_started (sample_config 10) sample_str_float) (Some true)].
Proof.
  refine (proj2 (proj2 (proj2 (proj2 (proj2
    (collect_media_threshold_or_timer (sample_config 10) sample_str_float
       (photo_message 7 70 1 "p1" (Some "hello")) (initial []) "photo" "p1" _) _))))).
  - reflexivity.
  - vm_compute. reflexivity.
Defined.

(** ** C7: the classifier *)

(** C7. A message is classified by its first attachment in the order photo,
    video, animation, document: a photo gives a ["photo"] item, a video or
    an animation a ["video"] item, a document a ["photo"] item when its
    MIME type starts with [image/], a ["video"] item when it starts with
    [video/], and no item otherwise (a missing MIME type counts as the
    empty string).  A classified message has its item (type, file id,
    caption) put at the back of the sender's queue before the threshold is
    looked at.  An unsupported document makes the handler send one reply,
    the explanation, and change nothing in [pending], [timers] or the
    tasks. *)
Theorem collect_media_classifier (cfg : config) (str_float : float -> string)
    (m : message) (w : world) :
  (forall f, photo m = Some f -> detect_media_type m = Detected "photo" f) /\
  (forall f, photo m = None -> video m = Some f ->
             detect_media_type m = Detected "video" f) /\
  (forall f, photo m = None -> video m = None -> animation m = Some f ->
             detect_media_type m = Detected "video" f) /\
  (forall d, photo m = None -> video m = None -> animation m = None ->
             doc m = Some d ->
     let mime := default "" (mime_type d) in
     detect_media_type m =
       if startswith "image/" mime then Detected "photo" (doc_file_id d)
       else if startswith "video/" mime then Detected "video" (doc_file_id d)
       else UnsupportedDocument) /\
  (forall t f, detect_media_type m = Detected t f ->
     let u := from_user m in
     let q := default [] (pending w !! u) ++ [Item t f (caption_or_None m)] in
     exists w0, pending w0 = <[u := q]> (pending w) /\ timers w0 = timers w /\
       calls w0 = calls w /\
       collect_media cfg str_float m w =
         if Z.of_nat (length q) >=? AUTO_SEND_THRESHOLD cfg
         then send_album_for_user u (chat m) (snd (_cancel_timer u w0))
         else (if Nat.eqb (length q) 1
               then platform (reply_text (chat m) (message_id m)
                                (album_started cfg str_float) (Some true))
               else ret tt) (snd (_start_timer u (chat m) w0))) /\
  (detect_media_type m = UnsupportedDocument ->
     let r := collect_media cfg str_float m w in
     calls (snd r) =
       calls w ++ [reply_text (chat m) (message_id m)
                     "Unsupported document type. Please send images or videos." None] /\
     pending (snd r) = pending w /\ timers (snd r) = timers w /\
     tasks (snd r) = tasks w).
Proof.
  split; [|split; [|split; [|split; [|split]]]].
  - intros f Hp. unfold detect_media_type. by rewrite Hp.
  - intros f Hp Hv. unfold detect_media_type. by rewrite Hp, Hv.
  - intros f Hp Hv Ha. unfold detect_media_type. by rewrite Hp, Hv, Ha.
  - intros d Hp Hv Ha Hd mime. unfold detect_media_type. by rewrite Hp, Hv, Ha, Hd.
  - intros t f Hd u q.
    destruct (collect_media_detected cfg str_float m w t f Hd) as [Hp Hr].
    eexists. split; [exact Hp|]. split; [reflexivity|]. split; [reflexivity|].
    exact Hr.
  - intros Hu r. unfold r, collect_media. rewrite Hu.
    rewrite platform_world. repeat split.
Qed.

Lemma collect_media_classifier_witness :
  detect_media_type (document_message 7 70 1 "d1" (Some "image/png")) = Detected "photo" "d1" /\
  detect_media_type (document_message 7 70 1 "d1" (Some "video/mp4")) = Detected "video" "d1" /\
  detect_media_type (document_message 7 70 1 "d1" (Some "application/pdf")) = UnsupportedDocument /\
  detect_media_type (document_message 7 70 1 "d1" None) = UnsupportedDocument.
Proof.
  split; [|split; [|split]].
  - exact (proj1 (proj2 (proj2 (proj2
      (collect_media_classifier (sample_config 10) sample_str_float
         (document_message 7 70 1 "d1" (Some "image/png")) (initial [])))))
      (Document "d1" (Some "image/png")) eq_refl eq_refl eq_refl eq_refl).
  - exact (proj1 (proj2 (proj2 (proj2
      (collect_media_classifier (sample_config 10) sample_str_float
         (document_message 7 70 1 "d1" (Some "video/mp4")) (initial [])))))
      (Document "d1" (Some "video/mp4")) eq_refl eq_refl eq_refl eq_refl).
  - exact (proj1 (proj2 (proj2 (proj2
      (collect_media_classifier (sample_config 10) sample_str_float
         (document_message 7 70 1 "d1" (Some "application/pdf")) (initial [])))))
      (Document "d1" (Some "application/pdf")) eq_refl eq_refl eq_refl eq_refl).
  - exact (proj1 (proj2 (proj2 (proj2
      (collect_media_classifier (sample_config 10) sample_str_float
         (document_message 7 70 1 "d1" None) (initial [])))))
      (Document "d1" None) eq_refl eq_refl eq_refl eq_refl).
Defined.

(** ** C10: animations are videos *)

(** C10. A message whose attachment is an animation is classified as a
    ["video"] item with the animation's file id, and that is the item
    [collect_media] puts at the back of the sender's queue.  Dispatched
    alone, such an item goes through [send_video]: that is the media call
    the dispatcher makes for a queue holding just this item.  Dispatched
    with others (a queue of two or more well-formed items that holds this
    item among its first ten, at index [i]), the dispatcher makes one
    [send_media_group] call whose entry at index [i] is an
    [InputMediaVideo] with the animation's file id, carrying the caption
    only when [i] is 0.  At no point is it a photo. *)
Theorem animation_is_video (cfg : config) (str_float : float -> string)
    (m : message) (w : world) (f : string) :
  photo m = None -> video m = None -> animation m = Some f ->
  let u := from_user m in
  let it := Item "video" f (caption_or_None m) in
  detect_media_type m = Detected "video" f /\
  pending (pending_append u it w) !! u = Some (default [] (pending w !! u) ++ [it]) /\
  collect_media cfg str_float m w =
    (if Z.of_nat (length (default [] (pending w !! u) ++ [it])) >=? AUTO_SEND_THRESHOLD cfg
     then send_album_for_user u (chat m) (snd (_cancel_timer u (pending_append u it w)))
     else (if Nat.eqb (length (default [] (pending w !! u) ++ [it])) 1
           then platform (reply_text (chat m) (message_id m)
                            (album_started cfg str_float) (Some true))
           else ret tt) (snd (_start_timer u (chat m) (pending_append u it w)))) /\
  (forall chat_id, send_single chat_id it = platform (send_video chat_id f (caption it))) /\
  (forall chat_id w1, try_send chat_id [it] w1 =
     (Ok tt, after_attempt chat_id (send_video chat_id f (caption it)) w1)) /\
  (forall b, _make_input_media it b = Ok (InputMediaVideo f (if b then caption it else None))) /\
  (forall user_id chat_id w1,
     pending w1 !! user_id = Some [it] ->
     exists notes,
       calls (snd (send_album_for_user user_id chat_id w1)) =
         calls w1 ++ send_video chat_id f (caption it) :: notes /\
       (notes = [] \/ exists e, notes = [failure_note chat_id e])) /\
  (forall user_id chat_id w1 items i,
     pending w1 !! user_id = Some items ->
     (2 <= length items)%nat -> Forall item_ok items ->
     (i < 10)%nat -> items !! i = Some it ->
     exists media notes,
       calls (snd (send_album_for_user user_id chat_id w1)) =
         calls w1 ++ send_media_group chat_id media :: notes /\
       (notes = [] \/ exists e, notes = [failure_note chat_id e]) /\
       length media = length (take 10 items) /\
       media !! i = Some (InputMediaVideo f (if Nat.eqb i 0 then caption it else None))).
Proof.
  intros Hp Hv Ha u it.
  assert (detect_media_type m = Detected "video" f) as Hd.
  { unfold detect_media_type. by rewrite Hp, Hv, Ha. }
  destruct (collect_media_detected cfg str_float m w "video" f Hd) as [Hq Hr].
  assert (item_ok it) as Hit by (by right).
  split; [exact Hd|]. split; [subst u it; by rewrite Hq, lookup_insert_eq|].
  split; [exact Hr|]. split; [reflexivity|].
  split; [intros chat_id w1; by rewrite try_send_single|].
  split; [reflexivity|]. split.
  - intros user_id chat_id w1 Hq1.
    destruct (dispatch_spec user_id chat_id w1 [it] Hq1) as (w' & E & Hc & _); [done|].
    rewrite E. simpl snd. rewrite Hc. simpl take.
    rewrite (try_send_single _ _ _ Hit). simpl snd.
    destruct (after_attempt_calls chat_id (send_video chat_id f (caption it))
                (set_send_locks (fun s => {[user_id]} ∪ s) w1))
      as (notes & Hcalls & Hn & _).
    exists notes. split; [exact Hcalls|exact Hn].
  - intros user_id chat_id w1 items i Hq1 Hlen Hok Hi Hlook.
    assert (items <> []) as Hne by (intros ->; simpl in Hlen; lia).
    destruct (dispatch_spec user_id chat_id w1 items Hq1 Hne) as (w' & E & Hc & _).
    rewrite E. simpl snd. rewrite Hc.
    assert (take 10 items <> []) as Hb by (destruct items; [done|discriminate]).
    destruct (try_send_calls chat_id (take 10 items)
                (set_send_locks (fun s => {[user_id]} ∪ s) w1) Hb
                (Forall_take _ _ _ Hok))
      as (c & notes & Hcalls & Hn & _ & Hpol).
    destruct Hpol as [(it' & Hone & _)|(_ & media & -> & Hm & Hall)].
    { apply (f_equal length) in Hone. rewrite length_take in Hone.
      change (length [it']) with 1%nat in Hone. lia. }
    exists media, notes. split; [exact Hcalls|]. split; [exact Hn|].
    split; [exact Hm|].
    assert (take 10 items !! i = Some it) as Hti by (by rewrite lookup_take_lt).
    destruct (Hall i it Hti) as (e & He & Htyp & Hfile & Hcap).
    rewrite He. f_equal.
    destruct e as [g cp|g cp]; simpl in Htyp, Hfile, Hcap; [discriminate|].
    by subst g cp.
Qed.

(** A photo and then an animation, sent out together by [/send_album]. *)
Lemma animation_is_video_witness :
  calls (snd (send_album_command
                (animation_message 7 70 2 "a1")
                (snd (collect_media (sample_config 10) sample_str_float
                        (animation_message 7 70 1 "a1") (initial [None])))))
  = [reply_text 70 1 (album_started (sample_config 10) sample_str_float) (Some true);
     send_video 70 "a1" None] /\
  detect_media_type (animation_message 7 70 1 "a1") = Detected "video" "a1" /\
  exists media notes,
    calls (snd (send_album_for_user 7 70
             (run (sample_config 10) sample_str_float (initial [])
                [NewMedia (photo_message 7 70 1 "p1" (Some "hello"));
                 NewMedia (animation_message 7 70 2 "a1")])))
    = calls (run (sample_config 10) sample_str_float (initial [])
               [NewMedia (photo_message 7 70 1 "p1" (Some "hello"));
                NewMedia (animation_message 7 70 2 "a1")])
      ++ send_media_group 70 media :: notes /\
    length media = 2%nat /\
    media !! 1%nat = Some (InputMediaVideo "a1" None).
Proof.
  split; [vm_compute; reflexivity|].
  split.
  - exact (proj1 (animation_is_video (sample_config 10) sample_str_float
                    (animation_message 7 70 1 "a1") (initial []) "a1"
                    eq_refl eq_refl eq_refl)).
  - destruct (proj2 (proj2 (proj2 (proj2 (proj2 (proj2 (proj2
        (animation_is_video (sample_config 10) sample_str_float
           (animation_message 7 70 2 "a1") (initial []) "a1"
           eq_refl eq_refl eq_refl)))))))
        7 70
        (run (sample_config 10) sample_str_float (initial [])
           [NewMedia (photo_message 7 70 1 "p1" (Some "hello"));
            NewMedia (animation_message 7 70 2 "a1")])
        [Item "photo" "p1" (Some "hello"); Item "video" "a1" None] 1%nat)
      as (media & notes & Hc & _ & Hlen & Hm).
    + vm_compute. reflexivity.
    + simpl. lia.
    + constructor; [by left|]. constructor; [by right|constructor].
    + lia.
    + reflexivity.
    + exists media, notes. split; [exact Hc|]. split; [exact Hlen|exact Hm].
Defined.

(** ** Facts about the registry *)

(** What a dispatch does to the registry, whatever the platform does. *)
Lemma send_album_for_user_pending user_id chat_id w :
  pending (snd (send_album_for_user user_id chat_id w)) =
  match pending w !! user_id with
  | Some (x :: l) =>
      if decide (drop 10 (x :: l) = []) then delete user_id (pending w)
      else <[user_id := drop 10 (x :: l)]> (pending w)
  | _ => pending w
  end.
Proof.
  destruct (pending w !! user_id) as [[|x l]|] eqn:Hq.
  - rewrite send_album_for_user_empty; [done|by rewrite Hq].
  - destruct (dispatch_spec user_id chat_id w (x :: l) Hq) as (w' & E & _ & _ & _ & Hp & _);
      [done|]. by rewrite E.
  - rewrite send_album_for_user_empty; [done|by rewrite Hq].
Qed.

Lemma send_album_for_user_trim user_id chat_id w :
  registry_inv w ->
  let q := default [] (pending w !! user_id) in
  pending (snd (send_album_for_user user_id chat_id w)) =
  if decide (drop 10 q = []) then delete user_id (pending w)
  else <[user_id := drop 10 q]> (pending w).
Proof.
  intros Hinv q. rewrite send_album_for_user_pending. unfold q.
  destruct (pending w !! user_id) as [[|x l]|] eqn:Hq; simpl.
  - by destruct (Hinv user_id [] Hq).
  - reflexivity.
  - symmetry. by apply delete_id.
Qed.

Lemma _wait_and_send_sleeping tid w u c :
  tasks w !! tid = Some (Task u c Sleeping) ->
  let w2 := set_tasks (fun ts => <[tid := Task u c Running]> ts) w in
  _wait_and_send tid w =
  (Ok tt, finish_task tid
            match pending w !! u with
            | Some (_ :: _) => snd (send_album_for_user u c w2)
            | _ => w2
            end).
Proof.
  intros Hk w2. unfold _wait_and_send. rewrite Hk.
  unfold bind at 1, modify at 1. fold w2.
  unfold bind at 1, try_except, bind at 1, gets.
  assert (pending w2 = pending w) as -> by done.
  destruct (pending w !! u) as [[|x l]|] eqn:Hq; try reflexivity.
  pose proof (send_album_for_user_never_raises u c w2) as Hok.
  destruct (send_album_for_user u c w2) as [r w3] eqn:E. simpl in Hok. subst r.
  reflexivity.
Qed.

Lemma _wait_and_send_pending tid w :
  pending (snd (_wait_and_send tid w)) = pending w \/
  exists u c w2, pending w2 = pending w /\
    pending (snd (_wait_and_send tid w)) = pending (snd (send_album_for_user u c w2)).
Proof.
  destruct (tasks w !! tid) as [[u c st]|] eqn:Hk.
  - destruct st; try (left; unfold _wait_and_send; by rewrite Hk).
    rewrite (_wait_and_send_sleeping tid w u c Hk). simpl.
    destruct (pending w !! u) as [[|x l]|]; auto.
    right. exists u, c, (set_tasks (fun ts => <[tid := Task u c Running]> ts) w).
    split; reflexivity.
  - left. unfold _wait_and_send. by rewrite Hk.
Qed.

Lemma detect_media_type_ok m t f :
  detect_media_type m = Detected t f -> t = "photo" \/ t = "video".
Proof.
  unfold detect_media_type.
  destruct (photo m); [intros [= <- _]; by left|].
  destruct (video m); [intros [= <- _]; by right|].
  destruct (animation m); [intros [= <- _]; by right|].
  destruct (doc m) as [d|]; [|discriminate].
  destruct (startswith "image/" _); [intros [= <- _]; by left|].
  destruct (startswith "video/" _); [intros [= <- _]; by right|discriminate].
Qed.

Section HandlerPending.

Variable cfg : config.
Variable str_float : float -> string.

Lemma status_pending m w : pending (snd (status m w)) = pending w.
Proof. unfold status, bind, gets. by rewrite platform_world. Qed.

Lemma start_pending m w : pending (snd (start cfg str_float m w)) = pending w.
Proof. unfold start. by rewrite platform_world. Qed.

Lemma cancel_queue_pending m w :
  pending (snd (cancel_queue m w)) = delete (from_user m) (pending w).
Proof.
  unfold cancel_queue, bind at 1, gets.
  destruct (pending w !! from_user m) as [l|] eqn:Hq.
  - rewrite bool_decide_eq_true_2 by eauto.
    unfold bind at 1, modify at 1, bind.
    destruct (_cancel_timer_spec (from_user m) (set_pending (delete (from_user m)) w))
      as (w1 & E & Hp & _).
    rewrite E, platform_eq. simpl.
    by destruct (script w1) as [|[?|] ?]; simpl; rewrite Hp.
  - rewrite bool_decide_eq_false_2 by (by intros [? ?]).
    rewrite platform_world. simpl. symmetry. by apply delete_id.
Qed.

Lemma send_album_command_unfold m w :
  exists w1, pending w1 = pending w /\
    send_album_command m w = send_album_for_user (from_user m) (chat m) w1.
Proof.
  unfold send_album_command, bind.
  destruct (_cancel_timer_spec (from_user m) w) as (w1 & E & Hp & _).
  rewrite E. by exists w1.
Qed.

Lemma send_album_command_pending m w :
  registry_inv w ->
  let q := default [] (pending w !! from_user m) in
  pending (snd (send_album_command m w)) =
  if decide (drop 10 q = []) then delete (from_user m) (pending w)
  else <[from_user m := drop 10 q]> (pending w).
Proof.
  intros Hinv q. destruct (send_album_command_unfold m w) as (w1 & Hp & ->).
  assert (registry_inv w1) as Hinv1.
  { intros u l. rewrite Hp. apply Hinv. }
  rewrite (send_album_for_user_trim _ _ _ Hinv1), Hp. reflexivity.
Qed.

End HandlerPending.

(** Invariants of the registry, stated once for any property [P] of a queue
    that survives the two ways a queue changes: the overflow of a queue
    keeps it, and so does a queue that gets a well-formed item at its back
    (the queue of a user without an entry counting as empty). *)
Section QueueInvariant.

Variable cfg : config.
Variable str_float : float -> string.
Variable P : list item -> Prop.

Hypothesis P_overflow : forall l, P l -> drop 10 l <> [] -> P (drop 10 l).
Hypothesis P_append : forall l it, P l \/ l = [] -> item_ok it -> P (l ++ [it]).

Lemma queues_inv_pending w w' :
  pending w' = pending w -> queues_inv P w -> queues_inv P w'.
Proof. unfold queues_inv. intros ->. auto. Qed.

Lemma queues_inv_insert w w' u q :
  P q -> pending w' = <[u := q]> (pending w) -> queues_inv P w -> queues_inv P w'.
Proof.
  unfold queues_inv. intros Hq -> Hinv u' l.
  destruct (decide (u = u')) as [->|Hne].
  - rewrite lookup_insert_eq. congruence.
  - rewrite lookup_insert_ne by done. apply Hinv.
Qed.

Lemma queues_inv_delete w w' u :
  pending w' = delete u (pending w) -> queues_inv P w -> queues_inv P w'.
Proof.
  unfold queues_inv. intros -> Hinv u' l.
  destruct (decide (u = u')) as [->|Hne].
  - by rewrite lookup_delete_eq.
  - rewrite lookup_delete_ne by done. apply Hinv.
Qed.

Lemma send_album_for_user_inv user_id chat_id w :
  queues_inv P w -> queues_inv P (snd (send_album_for_user user_id chat_id w)).
Proof.
  intros Hinv. pose proof (send_album_for_user_pending user_id chat_id w) as Hp.
  destruct (pending w !! user_id) as [[|x l]|] eqn:Hq;
    try by eapply queues_inv_pending.
  destruct (decide (drop 10 (x :: l) = [])) as [Hd|Hd].
  - by eapply queues_inv_delete.
  - eapply queues_inv_insert; [|exact Hp|exact Hinv].
    apply P_overflow; [|exact Hd]. by apply (Hinv user_id).
Qed.

Lemma _wait_and_send_inv tid w :
  queues_inv P w -> queues_inv P (snd (_wait_and_send tid w)).
Proof.
  intros Hinv. destruct (_wait_and_send_pending tid w) as [H|(u & c & w2 & H2 & H)].
  - by eapply queues_inv_pending.
  - eapply queues_inv_pending; [exact H|].
    apply send_album_for_user_inv. by eapply queues_inv_pending.
Qed.

Lemma collect_media_inv m w :
  queues_inv P w -> queues_inv P (snd (collect_media cfg str_float m w)).
Proof.
  intros Hinv. destruct (detect_media_type m) as [t f| |] eqn:Hd.
  - destruct (collect_media_detected cfg str_float m w t f Hd) as [Hp Hr].
    rewrite Hr.
    set (w0 := pending_append (from_user m) (Item t f (caption_or_None m)) w) in *.
    assert (queues_inv P w0) as Hinv0.
    { eapply queues_inv_insert; [|exact Hp|exact Hinv].
      apply P_append; [|exact (detect_media_type_ok m t f Hd)].
      destruct (pending w !! from_user m) as [l|] eqn:Hq; simpl; [left|by right].
      by apply (Hinv (from_user m)). }
    destruct (Z.of_nat _ >=? _).
    + destruct (_cancel_timer_spec (from_user m) w0) as (w1 & E & Hp1 & _).
      rewrite E. apply send_album_for_user_inv. by eapply queues_inv_pending.
    + destruct (_start_timer_spec (from_user m) (chat m) w0) as (w1 & E & Hp1 & _).
      rewrite E. simpl.
      destruct (Nat.eqb _ 1); [rewrite platform_world|];
        by eapply queues_inv_pending.
  - unfold collect_media. rewrite Hd, platform_world. by eapply queues_inv_pending.
  - unfold collect_media. rewrite Hd. exact Hinv.
Qed.

Lemma step_inv w ev : queues_inv P w -> queues_inv P (step cfg str_float w ev).
Proof.
  intros Hinv. unfold step. destruct ev as [m|m|m|m|m|tid]; simpl.
  - by apply collect_media_inv.
  - destruct (send_album_command_unfold m w) as (w1 & Hp & ->).
    apply send_album_for_user_inv. by eapply queues_inv_pending.
  - eapply queues_inv_delete; [apply cancel_queue_pending|exact Hinv].
  - eapply queues_inv_pending; [apply status_pending|exact Hinv].
  - eapply queues_inv_pending; [apply start_pending|exact Hinv].
  - by apply _wait_and_send_inv.
Qed.

Lemma run_inv evs : forall w, queues_inv P w -> queues_inv P (run cfg str_float w evs).
Proof.
  induction evs as [|ev evs IH]; intros w Hinv; simpl; [done|].
  apply IH. by apply step_inv.
Qed.

Lemma reachable_inv outcomes evs : queues_inv P (run cfg str_float (initial outcomes) evs).
Proof. apply run_inv. intros u l H. simpl in H. by rewrite lookup_empty in H. Qed.

End QueueInvariant.

Lemma registry_step_inv cfg str_float w ev :
  registry_inv w -> registry_inv (step cfg str_float w ev).
Proof.
  apply step_inv.
  - auto.
  - intros l it _ _. by destruct l.
Qed.

(** In every state the bot can reach, each entry of the registry holds at
    least one item, and every item is well formed. *)
Lemma reachable_registry_inv cfg str_float outcomes evs :
  registry_inv (run cfg str_float (initial outcomes) evs).
Proof.
  apply reachable_inv.
  - auto.
  - intros l it _ _. by destruct l.
Qed.

Lemma reachable_items_inv cfg str_float outcomes evs :
  items_inv (run cfg str_float (initial outcomes) evs).
Proof.
  apply reachable_inv.
  - intros l Hl _. by apply Forall_drop.
  - intros l it [Hl| ->] Hit; [|simpl; by apply Forall_singleton].
    apply Forall_app. split; [done|by apply Forall_singleton].
Qed.

Lemma collect_media_below_threshold cfg str_float m w t f :
  detect_media_type m = Detected t f ->
  let q := default [] (pending w !! from_user m) ++ [Item t f (caption_or_None m)] in
  Z.of_nat (length q) < AUTO_SEND_THRESHOLD cfg ->
  pending (snd (collect_media cfg str_float m w)) = <[from_user m := q]> (pending w).
Proof.
  intros Hd q Hlt.
  destruct (collect_media_detected cfg str_float m w t f Hd) as [Hp Hr].
  fold q in Hp, Hr. rewrite Hr.
  assert ((Z.of_nat (length q) >=? AUTO_SEND_THRESHOLD cfg) = false) as ->.
  { destruct (Z.geb_spec (Z.of_nat (length q)) (AUTO_SEND_THRESHOLD cfg)); [lia|done]. }
  destruct (_start_timer_spec (from_user m) (chat m)
              (pending_append (from_user m) (Item t f (caption_or_None m)) w))
    as (w1 & E & Hp1 & _).
  rewrite E. simpl.
  destruct (Nat.eqb _ 1); [rewrite platform_world|]; simpl; by rewrite Hp1, Hp.
Qed.

(** ** C9: an entry exists exactly while items are pending *)

(** C9. Take a world where every registry entry holds at least one item.
    After any event handled by the bot (a media message, one of the
    commands, a timer running out) this is still so, hence a user has an
    entry exactly when that user has at least one pending item.  The status
    command leaves the registry as it is.  The cancel command removes the
    sender's entry.  A forced dispatch leaves the sender with the overflow
    beyond the first ten items as the entry, and with no entry exactly when
    there is no overflow.  A first item for a user without an entry, below
    the threshold, creates the entry holding that one item.  And whoever
    calls the dispatcher (command, threshold or timer), it leaves the user
    with the overflow as the entry, or with no entry when nothing overflows. *)
Theorem registry_entry_lifecycle (cfg : config) (str_float : float -> string)
    (w : world) (ev : event) :
  registry_inv w ->
  let w' := step cfg str_float w ev in
  registry_inv w' /\
  (forall u, is_Some (pending w' !! u) <-> default [] (pending w' !! u) <> []) /\
  (forall m, ev = StatusCommand m -> pending w' = pending w) /\
  (forall m, ev = CancelCommand m -> pending w' = delete (from_user m) (pending w)) /\
  (forall m, ev = SendAlbumCommand m ->
     let q := default [] (pending w !! from_user m) in
     pending w' = (if decide (drop 10 q = []) then delete (from_user m) (pending w)
                   else <[from_user m := drop 10 q]> (pending w)) /\
     (pending w' !! from_user m = None <-> (length q <= 10)%nat)) /\
  (forall m t f, ev = NewMedia m -> detect_media_type m = Detected t f ->
     pending w !! from_user m = None -> 1 < AUTO_SEND_THRESHOLD cfg ->
     pending w' = <[from_user m := [Item t f (caption_or_None m)]]> (pending w)) /\
  (forall u c,
     let q := default [] (pending w !! u) in
     pending (snd (send_album_for_user u c w)) =
       if decide (drop 10 q = []) then delete u (pending w)
       else <[u := drop 10 q]> (pending w)).
Proof.
  intros Hinv w'.
  assert (registry_inv w') as Hinv' by (by apply registry_step_inv).
  split; [exact Hinv'|]. split; [|split; [|split; [|split; [|split]]]];
    [| | | | |intros u c; by apply send_album_for_user_trim].
  - intros u. split.
    + intros [l Hl]. rewrite Hl. simpl. by apply (Hinv' u).
    + destruct (pending w' !! u); [eauto|]. simpl. congruence.
  - intros m ->. apply status_pending.
  - intros m ->. apply cancel_queue_pending.
  - intros m -> q.
    pose proof (send_album_command_pending m w Hinv) as Hp. fold q in Hp.
    split; [exact Hp|]. unfold w', step. simpl. rewrite Hp.
    destruct (decide (drop 10 q = [])) as [Hd|Hd].
    + rewrite lookup_delete_eq. split; [intros _|done].
      apply (f_equal length) in Hd. rewrite length_drop in Hd. simpl in Hd. lia.
    + rewrite lookup_insert_eq. split; [done|]. intros Hlen.
      destruct Hd. by apply drop_ge.
  - intros m t f -> Hd Hnone Hth.
    pose proof (collect_media_below_threshold cfg str_float m w t f Hd) as Hp.
    rewrite Hnone in Hp. simpl in Hp. apply Hp. lia.
Qed.

Lemma registry_entry_lifecycle_witness :
  pending (step (sample_config 10) sample_str_float (sample_world 7 70 12 [])
             (CancelCommand (command_message 7 70 5)))
  = delete 7 (pending (sample_world 7 70 12 [])).
Proof.
  refine (proj1 (proj2 (proj2 (proj2
    (registry_entry_lifecycle (sample_config 10) sample_str_float
       (sample_world 7 70 12 []) (CancelCommand (command_message 7 70 5)) _))))
    _ eq_refl).
  intros u l. unfold sample_world; simpl.
  destruct (decide (u = 7)) as [->|Hne].
  - rewrite lookup_singleton_eq. by intros [= <-].
  - by rewrite lookup_singleton_ne.
Defined.

(** ** C8: numeric settings fall back to their defaults *)

Section ConfigFacts.

Variable py_int : string -> option Z.
Variable py_float : string -> option float.

(** What Python's [int] and [float] make of the two default literals. *)
Hypothesis py_int_10 : py_int "10" = Some 10.
Hypothesis py_float_3 : py_float "3" = Some 3%float.

Lemma load_config_token (environ : gmap string string) :
  let token := environ_get environ "BOT_TOKEN" "6556dtg" in
  load_config py_int py_float environ =
  if str_truthy token
  then Ok {| API_ID := 123456; API_HASH := "your_api_hash"; BOT_TOKEN := token;
             AUTO_SEND_THRESHOLD := load_threshold py_int environ;
             AUTO_SEND_DELAY := load_delay py_float environ |}
  else Raise (NameError "name 'LOGGER' is not defined").
Proof. intros token. unfold load_config. fold token. by destruct (str_truthy token). Qed.

(** C8. Whatever the two numeric variables hold, config.py fails or loads
    by the token alone, and when it loads, the threshold and the delay are
    the values of lines 19-30.  The threshold is at most 10; it is 10 when
    the variable is unset or does not parse as an integer, and the parsed
    value capped at 10 otherwise.  The delay is 3.0 when the variable is
    unset or does not parse as a float, and the parsed value otherwise. *)
Theorem config_numeric_fallback (environ : gmap string string) :
  (forall e, load_config py_int py_float environ = Raise e ->
             environ !! "BOT_TOKEN" = Some "") /\
  (environ !! "BOT_TOKEN" <> Some "" ->
     exists cfg, load_config py_int py_float environ = Ok cfg /\
       AUTO_SEND_THRESHOLD cfg = load_threshold py_int environ /\
       AUTO_SEND_DELAY cfg = load_delay py_float environ) /\
  load_threshold py_int environ <= 10 /\
  (environ !! "AUTO_SEND_THRESHOLD" = None -> load_threshold py_int environ = 10) /\
  (forall s, environ !! "AUTO_SEND_THRESHOLD" = Some s ->
     (py_int s = None -> load_threshold py_int environ = 10) /\
     (forall n, py_int s = Some n ->
        load_threshold py_int environ = if 10 <? n then 10 else n)) /\
  (environ !! "AUTO_SEND_DELAY" = None -> load_delay py_float environ = 3%float) /\
  (forall s, environ !! "AUTO_SEND_DELAY" = Some s ->
     (py_float s = None -> load_delay py_float environ = 3%float) /\
     (forall d, py_float s = Some d -> load_delay py_float environ = d)).
Proof.
  assert (forall token, str_truthy token = false -> token = "") as Hfalsy.
  { intros token H. unfold str_truthy in H.
    apply String.eqb_eq. by destruct (String.eqb token ""). }
  split; [|split; [|split; [|split; [|split; [|split]]]]].
  - intros e. rewrite load_config_token.
    destruct (str_truthy _) eqn:Ht; [discriminate|]. intros _.
    apply Hfalsy in Ht. unfold environ_get in Ht.
    destruct (environ !! "BOT_TOKEN"); simpl in Ht; [by subst|discriminate].
  - intros Hne. rewrite load_config_token.
    destruct (str_truthy _) eqn:Ht; [eauto|].
    apply Hfalsy in Ht. unfold environ_get in Ht.
    destruct (environ !! "BOT_TOKEN"); simpl in Ht; [by subst|discriminate].
  - unfold load_threshold.
    destruct (py_int (environ_get environ "AUTO_SEND_THRESHOLD" "10")) as [n|]; [|lia].
    destruct (Z.gtb_spec n 10); lia.
  - intros Hn. unfold load_threshold, environ_get. rewrite Hn. simpl.
    by rewrite py_int_10.
  - intros s Hs. unfold load_threshold, environ_get. rewrite Hs. simpl. split.
    + by intros ->.
    + intros n ->. by rewrite Z.gtb_ltb.
  - intros Hn. unfold load_delay, environ_get. rewrite Hn. simpl.
    by rewrite py_float_3.
  - intros s Hs. unfold load_delay, environ_get. rewrite Hs. simpl. split.
    + by intros ->.
    + by intros d ->.
Qed.

End ConfigFacts.

Lemma config_numeric_fallback_witness :
  load_threshold int_of_str {["AUTO_SEND_THRESHOLD" := "ten"]} = 10 /\
  load_threshold int_of_str {["AUTO_SEND_THRESHOLD" := "25"]} = 10 /\
  load_threshold int_of_str {["AUTO_SEND_THRESHOLD" := "4"]} = 4 /\
  load_delay float_of_str {["AUTO_SEND_DELAY" := "soon"]} = 3%float.
Proof.
  split; [|split; [|split]].
  - exact (proj1 (proj1 (proj2 (proj2 (proj2 (proj2
      (config_numeric_fallback int_of_str float_of_str eq_refl eq_refl
         {["AUTO_SEND_THRESHOLD" := "ten"]}))))) "ten" eq_refl) eq_refl).
  - exact (proj2 (proj1 (proj2 (proj2 (proj2 (proj2
      (config_numeric_fallback int_of_str float_of_str eq_refl eq_refl
         {["AUTO_SEND_THRESHOLD" := "25"]}))))) "25" eq_refl) 25 eq_refl).
  - exact (proj2 (proj1 (proj2 (proj2 (proj2 (proj2
      (config_numeric_fallback int_of_str float_of_str eq_refl eq_refl
         {["AUTO_SEND_THRESHOLD" := "4"]}))))) "4" eq_refl) 4 eq_refl).
  - exact (proj1 (proj2 (proj2 (proj2 (proj2 (proj2 (proj2
      (config_numeric_fallback int_of_str float_of_str eq_refl eq_refl
         {["AUTO_SEND_DELAY" := "soon"]})))))) "soon" eq_refl) eq_refl).
Defined.

(** ** C4: start-up without a token in the environment *)

Lemma main_empty_token py_int py_float (environ : gmap string string) :
  environ !! "BOT_TOKEN" = Some "" ->
  main py_int py_float environ = Stopped (NameError "name 'LOGGER' is not defined").
Proof.
  intros H. unfold main, load_config, environ_get. rewrite H. reflexivity.
Qed.

Lemma main_placeholder_token py_int py_float (environ : gmap string string) :
  environ !! "BOT_TOKEN" = Some "YOUR-BOT-TOKEN-HERE" ->
  main py_int py_float environ = Stopped (SystemExit 1).
Proof.
  intros H. unfold main, load_config, environ_get. rewrite H. reflexivity.
Qed.

(** C4, as the code behaves.  With no [BOT_TOKEN] in the environment
    (here: the empty environment), config.py takes the default ["6556dtg"];
    this is neither empty nor the placeholder that the guard of lines
    230-232 tests, so the script goes on to [app.run()] and serves. *)
Theorem main_without_token_serves (py_int : string -> option Z)
    (py_float : string -> option float) :
  exists cfg, main py_int py_float ∅ = Serving cfg /\ BOT_TOKEN cfg = "6556dtg".
Proof. eexists. split; reflexivity. Qed.

(** * Further properties of the code *)

(** ** Items of an unknown type *)

Lemma _make_input_media_unknown it b :
  ~ item_ok it ->
  _make_input_media it b = Raise (ValueError "Unsupported media type").
Proof.
  intros Hbad. unfold _make_input_media.
  destruct (String.eqb_spec (typ it) "photo") as [H|_]; [destruct Hbad; by left|].
  destruct (String.eqb_spec (typ it) "video") as [H|_]; [destruct Hbad; by right|].
  reflexivity.
Qed.

Lemma item_ok_dec it : {item_ok it} + {~ item_ok it}.
Proof.
  unfold item_ok.
  destruct (String.eqb_spec (typ it) "photo"); [by left; left|].
  destruct (String.eqb_spec (typ it) "video"); [by left; right|].
  right. by intros [?|?].
Qed.

Lemma build_media_unknown l : forall i,
  Exists (fun it => ~ item_ok it) l ->
  build_media i l = Raise (ValueError "Unsupported media type").
Proof.
  induction l as [|x l IH]; intros i Hex; [by inversion Hex|].
  simpl. destruct (item_ok_dec x) as [Hx|Hx].
  - destruct (_make_input_media_ok x (Nat.eqb i 0) Hx) as (m & -> & _).
    inversion Hex as [? ? Hbad|? ? Hrest]; subst; [done|].
    by rewrite (IH (S i) Hrest).
  - by rewrite _make_input_media_unknown.
Qed.

Lemma try_send_group_error chat_id to_send e w :
  length to_send <> 1%nat ->
  build_media 0 to_send = Raise e -> is_Exception e = true ->
  try_send chat_id to_send w =
  (Ok tt, logged (send_message chat_id ("Failed to send media: `" +:+ exn_str e +:+ "`")) w).
Proof.
  intros H1 Hm He. rewrite <- guarded_platform.
  assert (try_send chat_id to_send =
      try_except (send_group chat_id to_send)
        (fun e => try_except
           (platform (send_message chat_id ("Failed to send media: `" +:+ exn_str e +:+ "`")))
           (fun _ => ret tt))) as ->.
  { unfold try_send. destruct to_send as [|x [|y l]]; try reflexivity.
    simpl in H1. lia. }
  unfold try_except at 1, send_group, bind, lift. rewrite Hm, He. reflexivity.
Qed.

(** An album that holds an item whose type is neither ["photo"] nor
    ["video"] is not sent at all: [_make_input_media] raises [ValueError],
    no media call reaches the platform, the one call made is the report
    with the text of that error, and the batch is consumed all the same. *)
Theorem album_with_unknown_type_not_sent (w : world) (user_id chat_id : Z)
    (items : list item) :
  pending w !! user_id = Some items ->
  (2 <= length items)%nat ->
  Exists (fun it => ~ item_ok it) (take 10 items) ->
  let r := send_album_for_user user_id chat_id w in
  fst r = Ok tt /\
  calls (snd r) =
    calls w ++ [send_message chat_id "Failed to send media: `Unsupported media type`"] /\
  default [] (pending (snd r) !! user_id) = drop 10 items.
Proof.
  intros Hq Hlen Hbad r.
  assert (items <> []) as Hne by (intros ->; simpl in Hlen; lia).
  split; [apply send_album_for_user_never_raises|].
  destruct (dispatch_spec user_id chat_id w items Hq Hne)
    as (w' & E & Hc & _ & _ & Hp & _).
  unfold r. rewrite E. simpl. split.
  - rewrite Hc, (try_send_group_error chat_id (take 10 items)
                   (ValueError "Unsupported media type")).
    + reflexivity.
    + rewrite length_take. lia.
    + by apply build_media_unknown.
    + reflexivity.
  - rewrite Hp. destruct (decide (drop 10 items = [])) as [Hd|Hd].
    + by rewrite lookup_delete_eq, Hd.
    + by rewrite lookup_insert_eq.
Qed.

Lemma album_with_unknown_type_not_sent_witness :
  calls (snd (send_album_for_user 7 70
    (set_pending (fun p => <[7 := [sample_item 0; Item "sticker" "s1" None]]> p)
       (initial []))))
  = [send_message 70 "Failed to send media: `Unsupported media type`"].
Proof.
  refine (proj1 (proj2 (album_with_unknown_type_not_sent
    (set_pending (fun p => <[7 := [sample_item 0; Item "sticker" "s1" None]]> p)
       (initial [])) 7 70 [sample_item 0; Item "sticker" "s1" None] _ _ _))).
  - reflexivity.
  - simpl. lia.
  - apply Exists_cons_tl, Exists_cons_hd. by intros [?|?].
Defined.

(** A queue of exactly one item of an unknown type is consumed in silence:
    neither branch of lines 99-102 applies, so no call at all reaches the
    platform (no media, no report), and the user's entry is removed. *)
Theorem single_unknown_type_dropped (w : world) (user_id chat_id : Z) (it : item) :
  pending w !! user_id = Some [it] -> ~ item_ok it ->
  let r := send_album_for_user user_id chat_id w in
  fst r = Ok tt /\ calls (snd r) = calls w /\ script (snd r) = script w /\
  pending (snd r) = delete user_id (pending w) /\
  timers (snd r) !! user_id = None.
Proof.
  intros Hq Hbad r.
  split; [apply send_album_for_user_never_raises|].
  destruct (dispatch_spec user_id chat_id w [it] Hq)
    as (w' & E & Hc & Hs & _ & Hp & Ht & _); [done|].
  unfold r. rewrite E. simpl. simpl in Hc, Hs, Hp, Ht.
  assert (try_send chat_id [it] (set_send_locks (fun s => {[user_id]} ∪ s) w)
          = (Ok tt, set_send_locks (fun s => {[user_id]} ∪ s) w)) as Et.
  { unfold try_send, send_single, try_except, ret.
    destruct (String.eqb_spec (typ it) "photo") as [H|_]; [destruct Hbad; by left|].
    destruct (String.eqb_spec (typ it) "video") as [H|_]; [destruct Hbad; by right|].
    reflexivity. }
  rewrite Et in Hc, Hs. simpl in Hc, Hs.
  repeat split; try done. rewrite Ht. apply lookup_delete_eq.
Qed.

Lemma single_unknown_type_dropped_witness :
  calls (snd (send_album_for_user 7 70
    (set_pending (fun p => <[7 := [Item "sticker" "s1" None]]> p)
       (initial [Some "unused"])))) = [].
Proof.
  refine (proj1 (proj2 (single_unknown_type_dropped
    (set_pending (fun p => <[7 := [Item "sticker" "s1" None]]> p)
       (initial [Some "unused"])) 7 70 (Item "sticker" "s1" None) _ _))).
  - reflexivity.
  - by intros [?|?].
Defined.

(** ** Start-up, case by case *)

(** The three ways start-up ends, by the token that config.py resolves
    (the variable, or ["6556dtg"] when it is unset): an empty token stops
    the import with [NameError] on line 16 before the guard of lines 230-232
    is reached - so the guard's [not BOT_TOKEN] arm never fires; the
    placeholder ["YOUR-BOT-TOKEN-HERE"] exits with status 1; every other
    token, the default included, lets the bot serve with that token. *)
Theorem main_outcomes (py_int : string -> option Z) (py_float : string -> option float)
    (environ : gmap string string) :
  let token := environ_get environ "BOT_TOKEN" "6556dtg" in
  (main py_int py_float environ = Stopped (NameError "name 'LOGGER' is not defined")
     <-> token = "") /\
  (main py_int py_float environ = Stopped (SystemExit 1)
     <-> token = "YOUR-BOT-TOKEN-HERE") /\
  ((exists cfg, main py_int py_float environ = Serving cfg)
     <-> token <> "" /\ token <> "YOUR-BOT-TOKEN-HERE") /\
  (forall cfg, main py_int py_float environ = Serving cfg -> BOT_TOKEN cfg = token).
Proof.
  intros token. unfold main, load_config. fold token. unfold str_truthy.
  destruct (String.eqb token "") eqn:E1; simpl; rewrite ?E1; simpl.
  - apply String.eqb_eq in E1.
    split; [|split; [|split]].
    + done.
    + split; [discriminate|]. intros Hp. rewrite Hp in E1. discriminate.
    + split; [by intros [? ?]|]. by intros [? _].
    + discriminate.
  - apply String.eqb_neq in E1.
    destruct (String.eqb token "YOUR-BOT-TOKEN-HERE") eqn:E2; simpl.
    + apply String.eqb_eq in E2.
      split; [|split; [|split]].
      * split; [discriminate|done].
      * done.
      * split; [by intros [? ?]|]. by intros [_ ?].
      * discriminate.
    + apply String.eqb_neq in E2.
      split; [|split; [|split]].
      * split; [discriminate|done].
      * split; [discriminate|done].
      * split; [done|]. intros _. eauto.
      * by intros cfg [= <-].
Qed.

(** ** The two dispatch triggers besides a new item never fail *)

Lemma _wait_and_send_never_raises tid w : fst (_wait_and_send tid w) = Ok tt.
Proof.
  destruct (tasks w !! tid) as [[u c st]|] eqn:Hk.
  - destruct st; try (unfold _wait_and_send; by rewrite Hk).
    by rewrite (_wait_and_send_sleeping tid w u c Hk).
  - unfold _wait_and_send. by rewrite Hk.
Qed.

(** Whatever the state and whatever the platform answers (every call may
    raise), the forced dispatch of [/send_album] and the timer's
    [_wait_and_send] return normally: no exception reaches the framework
    or the event loop. *)
Theorem dispatch_triggers_never_raise (w : world) (m : message) (tid : nat) :
  fst (send_album_command m w) = Ok tt /\ fst (_wait_and_send tid w) = Ok tt.
Proof.
  split; [|apply _wait_and_send_never_raises].
  destruct (send_album_command_unfold m w) as (w1 & _ & ->).
  apply send_album_for_user_never_raises.
Qed.

(** ** [_cancel_timer] and [cancel_queue] *)

(** Cancelling is idempotent: without a handle for the user it changes
    nothing at all, and a second cancel right after a first changes nothing
    more.  The handles of the other users are never touched. *)
Theorem _cancel_timer_idempotent (user_id : Z) (w : world) :
  (timers w !! user_id = None -> _cancel_timer user_id w = (Ok tt, w)) /\
  _cancel_timer user_id (snd (_cancel_timer user_id w)) =
    (Ok tt, snd (_cancel_timer user_id w)) /\
  (forall u, u <> user_id ->
     timers (snd (_cancel_timer user_id w)) !! u = timers w !! u).
Proof.
  assert (forall w0, timers w0 !! user_id = None -> _cancel_timer user_id w0 = (Ok tt, w0))
    as Hnone.
  { intros w0 H0. unfold _cancel_timer, modify. by rewrite H0. }
  destruct (_cancel_timer_spec user_id w) as (w1 & E & _ & _ & _ & _ & Ht & _).
  split; [apply Hnone|]. rewrite E. simpl. split.
  - apply Hnone. rewrite Ht. apply lookup_delete_eq.
  - intros u Hne. rewrite Ht. by apply lookup_delete_ne.
Qed.

Lemma cancel_queue_unfold (m : message) (w : world) :
  cancel_queue m w =
  if bool_decide (is_Some (pending w !! from_user m))
  then platform (reply_text (chat m) (message_id m) "‚ùå Album queue cleared." None)
         (snd (_cancel_timer (from_user m) (set_pending (delete (from_user m)) w)))
  else platform (reply_text (chat m) (message_id m) "Queue is already empty." None) w.
Proof.
  unfold cancel_queue, bind at 1, gets.
  destruct (bool_decide (is_Some (pending w !! from_user m))); reflexivity.
Qed.

(** [/cancel] for a user with an entry removes the entry and the timer
    handle, leaves the task held before done, and confirms; for a user
    without an entry it only answers that the queue is already empty and
    touches neither [pending] nor [timers] nor any task - a handle that
    such a user might hold is not cancelled.  Either way the platform sees
    exactly one call, the reply. *)
Theorem cancel_queue_behaviour (m : message) (w : world) :
  let u := from_user m in
  let r := cancel_queue m w in
  (is_Some (pending w !! u) ->
     calls (snd r) =
       calls w ++ [reply_text (chat m) (message_id m) "‚ùå Album queue cleared." None] /\
     pending (snd r) = delete u (pending w) /\
     timers (snd r) = delete u (timers w) /\
     (forall tid t, timers w !! u = Some tid -> tasks w !! tid = Some t ->
                    is_done (snd r) tid)) /\
  (pending w !! u = None ->
     calls (snd r) =
       calls w ++ [reply_text (chat m) (message_id m) "Queue is already empty." None] /\
     pending (snd r) = pending w /\ timers (snd r) = timers w /\
     tasks (snd r) = tasks w).
Proof.
  intros u r. unfold r. rewrite cancel_queue_unfold. fold u. split.
  - intros Hsome. rewrite bool_decide_eq_true_2 by done.
    destruct (_cancel_timer_spec u (set_pending (delete u) w))
      as (w1 & E & Hp & _ & Hc & _ & Ht & _ & Hdone & _).
    rewrite E, platform_world. simpl. rewrite Hc, Hp, Ht.
    split; [done|]. split; [done|]. split; [done|].
    intros tid t H1 H2. destruct (Hdone tid t H1 H2) as (t' & ? & ?). by exists t'.
  - intros Hnone. rewrite bool_decide_eq_false_2 by (rewrite Hnone; by intros [? ?]).
    rewrite platform_world. repeat split.
Qed.

Lemma cancel_queue_behaviour_witness :
  pending (snd (cancel_queue (command_message 7 70 9) (sample_world 7 70 3 []))) !! 7 = None.
Proof.
  assert (is_Some (pending (sample_world 7 70 3 []) !! from_user (command_message 7 70 9)))
    as Hs by (vm_compute; eauto).
  rewrite (proj1 (proj2 (proj1 (cancel_queue_behaviour (command_message 7 70 9)
                                  (sample_world 7 70 3 [])) Hs))).
  apply lookup_delete_eq.
Defined.

(** ** A threshold of one or less *)

(** config.py caps the threshold at 10 but puts no floor under it.  With a
    threshold of 1 or less (0 and negative values included) the first item
    of a user reaches the threshold at once: it leaves alone through
    [send_photo] or [send_video] with its caption, no acknowledgment is
    sent, no timer is left armed and the user ends with no entry. *)
Theorem threshold_at_most_one_sends_at_once (cfg : config) (str_float : float -> string)
    (m : message) (w : world) (t f : string) :
  AUTO_SEND_THRESHOLD cfg <= 1 ->
  detect_media_type m = Detected t f ->
  pending w !! from_user m = None ->
  let r := collect_media cfg str_float m w in
  fst r = Ok tt /\
  (exists c notes,
     calls (snd r) = calls w ++ c :: notes /\
     (notes = [] \/ exists e, notes = [failure_note (chat m) e]) /\
     ((t = "photo" /\ c = send_photo (chat m) f (caption_or_None m)) \/
      (t = "video" /\ c = send_video (chat m) f (caption_or_None m)))) /\
  pending (snd r) !! from_user m = None /\
  timers (snd r) !! from_user m = None.
Proof.
  intros Hth Hd Hnone r.
  destruct (collect_media_detected cfg str_float m w t f Hd) as [Hp0 Hr].
  rewrite Hnone in Hp0, Hr. cbn [from_option id app length] in Hp0, Hr.
  rewrite (proj2 (Z.geb_le _ _)) in Hr by lia.
  set (it := Item t f (caption_or_None m)) in *.
  destruct (_cancel_timer_spec (from_user m) (pending_append (from_user m) it w))
    as (w1 & E & Hp & _ & Hc & _ & Ht & _).
  rewrite E in Hr. simpl in Hr. unfold r. rewrite Hr.
  assert (pending w1 !! from_user m = Some [it]) as Hq.
  { by rewrite Hp, Hp0, lookup_insert_eq. }
  split; [apply send_album_for_user_never_raises|].
  destruct (dispatch_spec (from_user m) (chat m) w1 [it] Hq)
    as (w' & E' & Hc' & _ & _ & Hp' & Ht' & _); [done|].
  rewrite E'. simpl. simpl in Hc', Hp', Ht'.
  assert (item_ok it) as Hok by exact (detect_media_type_ok m t f Hd).
  destruct (try_send_calls (chat m) [it]
              (set_send_locks (fun s => {[from_user m]} ∪ s) w1))
    as (c & notes & Hcalls & Hn & _ & Hpol); [done|by apply Forall_singleton|].
  split; [|split].
  - exists c, notes. rewrite Hc', Hcalls. simpl. rewrite Hc.
    split; [done|]. split; [exact Hn|].
    destruct Hpol as [(it' & [= <-] & Hk)|(Hlen & _)]; [exact Hk|].
    simpl in Hlen. lia.
  - rewrite Hp'. apply lookup_delete_eq.
  - rewrite Ht'. apply lookup_delete_eq.
Qed.

Lemma threshold_at_most_one_sends_at_once_witness :
  pending (snd (collect_media (sample_config 0) sample_str_float
                  (photo_message 7 70 1 "p1" (Some "hello")) (initial []))) !! 7 = None.
Proof.
  refine (proj1 (proj2 (proj2
    (threshold_at_most_one_sends_at_once (sample_config 0) sample_str_float
       (photo_message 7 70 1 "p1" (Some "hello")) (initial []) "photo" "p1" _ _ _)))).
  - simpl. lia.
  - reflexivity.
  - reflexivity.
Defined.

(** ** Nothing is lost, duplicated or reordered *)

Lemma media_files_notes chat_id notes :
  notes = [] \/ (exists e, notes = [failure_note chat_id e]) -> media_files notes = [].
Proof. by intros [->|(e & ->)]. Qed.

Lemma try_send_files chat_id batch w :
  batch <> [] -> Forall item_ok batch -> (length batch <= 10)%nat ->
  exists cs, calls (snd (try_send chat_id batch w)) = calls w ++ cs /\
    media_files cs = file_id <$> batch /\
    Forall (fun c => length (call_files c) <= 10)%nat cs.
Proof.
  intros Hne Hok Hlen.
  destruct (try_send_calls chat_id batch w Hne Hok)
    as (c & notes & Hcalls & Hn & _ & Hpol).
  exists (c :: notes). split; [exact Hcalls|].
  assert (call_files c = file_id <$> batch) as Hc.
  { destruct Hpol as [(it & -> & [[_ ->]|[_ ->]])|(_ & media & -> & Hm & Hall)];
      try reflexivity.
    simpl. apply list_eq. intros i. rewrite !list_lookup_fmap.
    destruct (batch !! i) as [it|] eqn:Hi.
    - destruct (Hall i it Hi) as (m & -> & _ & Hf & _). simpl. by rewrite Hf.
    - assert (media !! i = None) as ->; [|done].
      apply lookup_ge_None. rewrite Hm. by apply lookup_ge_None. }
  split.
  - unfold media_files. simpl. fold (media_files notes).
    by rewrite (media_files_notes chat_id notes Hn), app_nil_r.
  - constructor.
    + rewrite Hc, length_fmap. exact Hlen.
    + destruct Hn as [->|(e & ->)]; [constructor|].
      apply Forall_singleton. simpl. lia.
Qed.

Lemma dispatch_queue_after user_id chat_id w :
  default [] (pending (snd (send_album_for_user user_id chat_id w)) !! user_id)
  = drop 10 (default [] (pending w !! user_id)).
Proof.
  rewrite send_album_for_user_pending.
  destruct (pending w !! user_id) as [[|x l]|] eqn:Hq.
  - by rewrite Hq.
  - destruct (decide (drop 10 (x :: l) = [])) as [Hd|Hd].
    + rewrite lookup_delete_eq. cbn [from_option id]. by rewrite Hd.
    + by rewrite lookup_insert_eq.
  - by rewrite Hq.
Qed.

(** What one run of the dispatcher hands to the platform as media: the
    first ten items of the queue. *)
Lemma send_album_for_user_files (w : world) (user_id chat_id : Z) :
  Forall item_ok (default [] (pending w !! user_id)) ->
  exists cs, calls (snd (send_album_for_user user_id chat_id w)) = calls w ++ cs /\
    media_files cs = file_id <$> take 10 (default [] (pending w !! user_id)) /\
    Forall (fun c => length (call_files c) <= 10)%nat cs.
Proof.
  intros Hok.
  destruct (pending w !! user_id) as [[|x l]|] eqn:Hq; simpl in Hok.
  - exists []. rewrite send_album_for_user_empty by (by rewrite Hq).
    simpl. by rewrite app_nil_r.
  - destruct (dispatch_spec user_id chat_id w (x :: l) Hq)
      as (w1 & E & Hc & _); [done|].
    rewrite E. simpl snd.
    destruct (try_send_files chat_id (take 10 (x :: l))
                (set_send_locks (fun s => {[user_id]} ∪ s) w))
      as (cs & Hcs & Hfiles & Hten);
      [done|by apply Forall_take|rewrite length_take; lia|].
    exists cs. rewrite Hc. by split; [exact Hcs|split].
  - exists []. rewrite send_album_for_user_empty by (by rewrite Hq).
    simpl. by rewrite app_nil_r.
Qed.

(** One run of the dispatcher, whatever the platform answers: the file ids
    handed to the platform as media, followed by the file ids still queued
    afterwards, are the file ids of the queue before, in the same order;
    and no call carries more than ten of them. *)
Theorem dispatch_conserves_items (w : world) (user_id chat_id : Z) :
  Forall item_ok (default [] (pending w !! user_id)) ->
  let w' := snd (send_album_for_user user_id chat_id w) in
  exists cs, calls w' = calls w ++ cs /\
    media_files cs ++ (file_id <$> default [] (pending w' !! user_id))
      = file_id <$> default [] (pending w !! user_id) /\
    Forall (fun c => length (call_files c) <= 10)%nat cs.
Proof.
  intros Hok w'.
  destruct (send_album_for_user_files w user_id chat_id Hok) as (cs & Hc & Hf & Hten).
  exists cs. split; [exact Hc|]. split; [|exact Hten].
  unfold w'. rewrite Hf, dispatch_queue_after.
  by rewrite <- fmap_app, take_drop.
Qed.

Lemma dispatch_conserves_items_witness :
  exists cs,
    calls (snd (send_album_for_user 7 70 (sample_world 7 70 12 [Some "flood"]))) = cs /\
    media_files cs ++
      (file_id <$> default []
         (pending (snd (send_album_for_user 7 70 (sample_world 7 70 12 [Some "flood"]))) !! 7))
    = file_id <$> (sample_item <$> seq 0 12).
Proof.
  destruct (dispatch_conserves_items (sample_world 7 70 12 [Some "flood"]) 7 70)
    as (cs & H1 & H2 & _).
  - apply (sample_items_ok 12).
  - exists cs. split; [exact H1|exact H2].
Defined.

(** Repeated dispatching drains a queue in order: after [n] runs of the
    dispatcher, with [n] large enough for the queue (ten items per run),
    the media handed to the platform are exactly the queued items, each
    once, in the order they were queued, in calls of at most ten, and
    nothing is left pending - whichever of the calls raised. *)
Theorem repeated_dispatch_delivers_all (n : nat) (w : world) (user_id chat_id : Z) :
  Forall item_ok (default [] (pending w !! user_id)) ->
  (length (default [] (pending w !! user_id)) <= 10 * n)%nat ->
  let w' := dispatch_n n user_id chat_id w in
  exists cs, calls w' = calls w ++ cs /\
    media_files cs = file_id <$> default [] (pending w !! user_id) /\
    Forall (fun c => length (call_files c) <= 10)%nat cs /\
    default [] (pending w' !! user_id) = [].
Proof.
  revert w. induction n as [|n IH]; intros w Hok Hlen w'.
  - exists []. unfold w'. simpl. rewrite app_nil_r.
    destruct (default [] (pending w !! user_id)); [by repeat split|simpl in Hlen; lia].
  - unfold w'. simpl.
    destruct (send_album_for_user_files w user_id chat_id Hok) as (cs1 & Hc1 & Hf1 & Hten1).
    pose proof (dispatch_queue_after user_id chat_id w) as Hq1.
    set (w1 := snd (send_album_for_user user_id chat_id w)) in *.
    destruct (IH w1) as (cs2 & Hc2 & Hf2 & Hten2 & Hempty).
    + rewrite Hq1. by apply Forall_drop.
    + rewrite Hq1, length_drop. lia.
    + exists (cs1 ++ cs2). split; [by rewrite Hc2, Hc1, app_assoc|].
      split; [|split; [by apply Forall_app|exact Hempty]].
      unfold media_files in *. rewrite flat_map_app, Hf2, Hf1, Hq1.
      by rewrite <- fmap_app, take_drop.
Qed.

Lemma repeated_dispatch_delivers_all_witness :
  exists cs,
    calls (dispatch_n 3 7 70 (sample_world 7 70 25 [None; Some "flood"; Some "down"])) = cs /\
    media_files cs = file_id <$> (sample_item <$> seq 0 25).
Proof.
  destruct (repeated_dispatch_delivers_all 3
              (sample_world 7 70 25 [None; Some "flood"; Some "down"]) 7 70)
    as (cs & H1 & H2 & _).
  - apply (sample_items_ok 25).
  - vm_compute. lia.
  - exists cs. split; [exact H1|exact H2].
Defined.

(** ** Users do not interfere *)

Lemma same_elsewhere_refl u w : same_elsewhere u w w.
Proof. by intros u' _. Qed.

Lemma same_elsewhere_trans u w1 w2 w3 :
  same_elsewhere u w1 w2 -> same_elsewhere u w2 w3 -> same_elsewhere u w1 w3.
Proof.
  intros H12 H23 u' Hne. destruct (H12 u' Hne) as [? ?], (H23 u' Hne) as [? ?].
  split; congruence.
Qed.

Lemma same_elsewhere_eq u w w' :
  pending w' = pending w -> timers w' = timers w -> same_elsewhere u w w'.
Proof. intros Hp Ht u' _. by rewrite Hp, Ht. Qed.

Lemma _cancel_timer_elsewhere u w : same_elsewhere u w (snd (_cancel_timer u w)).
Proof.
  destruct (_cancel_timer_spec u w) as (w1 & E & Hp & _ & _ & _ & Ht & _).
  rewrite E. intros u' Hne. simpl. rewrite Hp, Ht. by rewrite lookup_delete_ne.
Qed.

Lemma _start_timer_elsewhere u c w : same_elsewhere u w (snd (_start_timer u c w)).
Proof.
  destruct (_start_timer_spec u c w) as (w1 & E & Hp & _ & _ & _ & Ht & _).
  rewrite E. intros u' Hne. simpl. rewrite Hp, Ht. by rewrite lookup_insert_ne.
Qed.

Lemma send_album_for_user_elsewhere u c w :
  same_elsewhere u w (snd (send_album_for_user u c w)).
Proof.
  destruct (pending w !! u) as [[|x l]|] eqn:Hq.
  - rewrite send_album_for_user_empty by (by rewrite Hq). by apply same_elsewhere_eq.
  - destruct (dispatch_spec u c w (x :: l) Hq) as (w1 & E & _ & _ & _ & Hp & Ht & _);
      [done|].
    rewrite E. intros u' Hne. simpl. rewrite Hp, Ht.
    destruct (decide (drop 10 (x :: l) = []));
      by rewrite ?lookup_delete_ne, ?lookup_insert_ne.
  - rewrite send_album_for_user_empty by (by rewrite Hq). by apply same_elsewhere_eq.
Qed.

Lemma collect_media_elsewhere cfg str_float m w :
  same_elsewhere (from_user m) w (snd (collect_media cfg str_float m w)).
Proof.
  destruct (detect_media_type m) as [t f| |] eqn:Hd.
  - destruct (collect_media_detected cfg str_float m w t f Hd) as [Hp Hr].
    rewrite Hr.
    set (w0 := pending_append (from_user m) (Item t f (caption_or_None m)) w) in *.
    assert (same_elsewhere (from_user m) w w0) as H0.
    { intros u' Hne. rewrite Hp. by rewrite lookup_insert_ne. }
    eapply same_elsewhere_trans; [exact H0|].
    destruct (Z.of_nat _ >=? _).
    + eapply same_elsewhere_trans; [apply _cancel_timer_elsewhere|].
      apply send_album_for_user_elsewhere.
    + eapply same_elsewhere_trans; [apply _start_timer_elsewhere|].
      destruct (Nat.eqb _ 1); [rewrite platform_world|]; by apply same_elsewhere_eq.
  - unfold collect_media. rewrite Hd, platform_world. by apply same_elsewhere_eq.
  - unfold collect_media. rewrite Hd. apply same_elsewhere_refl.
Qed.

Lemma cancel_queue_elsewhere m w :
  same_elsewhere (from_user m) w (snd (cancel_queue m w)).
Proof.
  rewrite cancel_queue_unfold.
  destruct (bool_decide _); rewrite platform_world.
  - apply (same_elsewhere_trans _ w (set_pending (delete (from_user m)) w)).
    + intros u' Hne. simpl. by rewrite lookup_delete_ne.
    + eapply same_elsewhere_trans; [apply _cancel_timer_elsewhere|].
      by apply same_elsewhere_eq.
  - by apply same_elsewhere_eq.
Qed.

Lemma _wait_and_send_elsewhere tid w u c st :
  tasks w !! tid = Some (Task u c st) ->
  same_elsewhere u w (snd (_wait_and_send tid w)).
Proof.
  intros Hk. destruct st; try (unfold _wait_and_send; rewrite Hk; by apply same_elsewhere_refl).
  rewrite (_wait_and_send_sleeping tid w u c Hk). simpl.
  destruct (pending w !! u) as [[|x l]|]; try by apply same_elsewhere_eq.
  apply (same_elsewhere_trans _ w
           (set_tasks (fun ts => <[tid := Task u c Running]> ts) w));
    [by apply same_elsewhere_eq|].
  eapply same_elsewhere_trans; [apply send_album_for_user_elsewhere|].
  by apply same_elsewhere_eq.
Qed.

(** Whatever event the bot handles for a user (a message of that user, or
    a timer task of that user running out), the queue and the timer handle
    of every other user are exactly what they were. *)
Theorem handlers_touch_only_their_user (cfg : config) (str_float : float -> string)
    (w : world) (ev : event) (user_id : Z) :
  event_user w ev = Some user_id ->
  forall u, u <> user_id ->
    pending (step cfg str_float w ev) !! u = pending w !! u /\
    timers (step cfg str_float w ev) !! u = timers w !! u.
Proof.
  intros Hev. change (same_elsewhere user_id w (step cfg str_float w ev)).
  unfold step. destruct ev as [m|m|m|m|m|tid]; simpl in Hev |- *;
    try (injection Hev as <-).
  - apply collect_media_elsewhere.
  - pose proof (_cancel_timer_elsewhere (from_user m) w) as Hc.
    unfold send_album_command, bind.
    destruct (_cancel_timer_spec (from_user m) w) as (w2 & E & _).
    rewrite E in Hc |- *. simpl in Hc.
    eapply same_elsewhere_trans; [exact Hc|].
    apply send_album_for_user_elsewhere.
  - apply cancel_queue_elsewhere.
  - unfold status, bind, gets. rewrite platform_world. by apply same_elsewhere_eq.
  - unfold start. rewrite platform_world. by apply same_elsewhere_eq.
  - destruct (tasks w !! tid) as [[u c st]|] eqn:Hk; [|discriminate].
    simpl in Hev. injection Hev as <-. by eapply _wait_and_send_elsewhere.
Qed.

Lemma handlers_touch_only_their_user_witness :
  pending (step (sample_config 10) sample_str_float (sample_world 7 70 3 [])
             (NewMedia (photo_message 8 80 1 "q1" None))) !! 7
  = pending (sample_world 7 70 3 []) !! 7.
Proof.
  refine (proj1 (handlers_touch_only_their_user (sample_config 10) sample_str_float
    (sample_world 7 70 3 []) (NewMedia (photo_message 8 80 1 "q1" None)) 8 _ 7 _)).
  - reflexivity.
  - discriminate.
Defined.

(** ** Queues stay below the threshold *)

Lemma load_config_threshold_le py_int py_float (environ : gmap string string) cfg :
  load_config py_int py_float environ = Ok cfg -> AUTO_SEND_THRESHOLD cfg <= 10.
Proof.
  unfold load_config. destruct (negb _); [discriminate|]. intros [= <-]. simpl.
  unfold load_threshold.
  destruct (py_int (environ_get environ "AUTO_SEND_THRESHOLD" "10")) as [n|]; [|lia].
  destruct (Z.gtb_spec n 10); lia.
Qed.

Lemma collect_media_below cfg str_float m w :
  AUTO_SEND_THRESHOLD cfg <= 10 ->
  queues_inv (fun l => Z.of_nat (length l) < AUTO_SEND_THRESHOLD cfg) w ->
  queues_inv (fun l => Z.of_nat (length l) < AUTO_SEND_THRESHOLD cfg)
    (snd (collect_media cfg str_float m w)).
Proof.
  intros Hth Hinv. destruct (detect_media_type m) as [t f| |] eqn:Hd.
  - set (q := default [] (pending w !! from_user m) ++ [Item t f (caption_or_None m)]).
    destruct (Z.ltb_spec (Z.of_nat (length q)) (AUTO_SEND_THRESHOLD cfg)) as [Hlt|Hge].
    + eapply queues_inv_insert;
        [|exact (collect_media_below_threshold cfg str_float m w t f Hd Hlt)|exact Hinv].
      exact Hlt.
    + destruct (collect_media_detected cfg str_float m w t f Hd) as [Hp Hr].
      fold q in Hp, Hr. rewrite (proj2 (Z.geb_le _ _)) in Hr by lia.
      destruct (_cancel_timer_spec (from_user m)
                  (pending_append (from_user m) (Item t f (caption_or_None m)) w))
        as (w1 & E & Hp1 & _).
      rewrite E in Hr. simpl in Hr. rewrite Hr.
      assert (length q <= 10)%nat as Hlen.
      { unfold q. rewrite length_app. simpl.
        destruct (pending w !! from_user m) as [l|] eqn:Hl; simpl; [|lia].
        pose proof (Hinv (from_user m) l Hl) as Hl'. simpl in Hl'. lia. }
      assert (pending w1 !! from_user m = Some q) as Hq1.
      { by rewrite Hp1, Hp, lookup_insert_eq. }
      assert (q <> []) as Hne by (unfold q; by destruct (default _ _)).
      destruct (dispatch_spec (from_user m) (chat m) w1 q Hq1 Hne)
        as (w2 & E2 & _ & _ & _ & Hp2 & _).
      rewrite E2. simpl.
      rewrite decide_True in Hp2 by (by apply drop_ge).
      intros u' l Hl. rewrite Hp2, Hp1, Hp in Hl.
      destruct (decide (u' = from_user m)) as [->|Hu].
      * by rewrite lookup_delete_eq in Hl.
      * rewrite lookup_delete_ne, lookup_insert_ne in Hl by done.
        by apply (Hinv u').
  - unfold collect_media. rewrite Hd, platform_world. by eapply queues_inv_pending.
  - unfold collect_media. rewrite Hd. exact Hinv.
Qed.

Lemma step_below cfg str_float w ev :
  AUTO_SEND_THRESHOLD cfg <= 10 ->
  queues_inv (fun l => Z.of_nat (length l) < AUTO_SEND_THRESHOLD cfg) w ->
  queues_inv (fun l => Z.of_nat (length l) < AUTO_SEND_THRESHOLD cfg)
    (step cfg str_float w ev).
Proof.
  intros Hth Hinv.
  assert (forall l : list item,
            Z.of_nat (length l) < AUTO_SEND_THRESHOLD cfg -> drop 10 l <> [] ->
            Z.of_nat (length (drop 10 l)) < AUTO_SEND_THRESHOLD cfg) as Hover.
  { intros l Hl _. rewrite length_drop. lia. }
  unfold step. destruct ev as [m|m|m|m|m|tid]; simpl.
  - by apply collect_media_below.
  - destruct (send_album_command_unfold m w) as (w1 & Hp & ->).
    apply (send_album_for_user_inv _ Hover). by eapply queues_inv_pending.
  - eapply queues_inv_delete; [apply cancel_queue_pending|exact Hinv].
  - eapply queues_inv_pending; [apply status_pending|exact Hinv].
  - eapply queues_inv_pending; [apply start_pending|exact Hinv].
  - by apply (_wait_and_send_inv _ Hover).
Qed.

Lemma run_below cfg str_float evs : forall w,
  AUTO_SEND_THRESHOLD cfg <= 10 ->
  queues_inv (fun l => Z.of_nat (length l) < AUTO_SEND_THRESHOLD cfg) w ->
  queues_inv (fun l => Z.of_nat (length l) < AUTO_SEND_THRESHOLD cfg)
    (run cfg str_float w evs).
Proof.
  induction evs as [|ev evs' IH]; intros w Hth Hinv; simpl; [done|].
  apply IH; [done|]. by apply step_below.
Qed.

(** Under any configuration that config.py can produce, and in every state
    the bot reaches by handling events one after the other, each queue is
    shorter than the threshold, hence shorter than ten: the overflow
    branch of the dispatcher is never entered, and every dispatch sends the
    whole queue in one call. *)
Theorem reachable_queues_below_threshold (py_int : string -> option Z)
    (py_float : string -> option float) (environ : gmap string string)
    (cfg : config) (str_float : float -> string)
    (outcomes : list (option string)) (evs : list event) (u : Z) (l : list item) :
  load_config py_int py_float environ = Ok cfg ->
  pending (run cfg str_float (initial outcomes) evs) !! u = Some l ->
  Z.of_nat (length l) < AUTO_SEND_THRESHOLD cfg /\ (length l < 10)%nat /\
  drop 10 l = [].
Proof.
  intros Hcfg Hl.
  pose proof (load_config_threshold_le _ _ _ _ Hcfg) as Hth.
  assert (Z.of_nat (length l) < AUTO_SEND_THRESHOLD cfg) as Hlt.
  { apply (run_below cfg str_float evs (initial outcomes) Hth) with u; [|exact Hl].
    intros u' l' H'. simpl in H'. by rewrite lookup_empty in H'. }
  split; [exact Hlt|]. split; [lia|]. apply drop_ge. lia.
Qed.

Lemma reachable_queues_below_threshold_witness :
  pending (run (sample_config 10) sample_str_float (initial []) (photos 2)) !! 7
    = Some [Item "photo" "p0" (Some "c0"); Item "photo" "p1" (Some "c1")] /\
  (length [Item "photo" "p0" (Some "c0"); Item "photo" "p1" (Some "c1")] < 10)%nat.
Proof.
  assert (pending (run (sample_config 10) sample_str_float (initial []) (photos 2)) !! 7
          = Some [Item "photo" "p0" (Some "c0"); Item "photo" "p1" (Some "c1")]) as Hq
    by (vm_compute; reflexivity).
  split; [exact Hq|].
  refine (proj1 (proj2 (reachable_queues_below_threshold int_of_str float_of_str
    {["AUTO_SEND_THRESHOLD" := "25"; "BOT_TOKEN" := "12345:token"]}
    (sample_config 10) sample_str_float [] (photos 2) 7 _ _ Hq))).
  vm_compute. reflexivity.
Defined.

(** ** One live timer per user, and one exactly while items are pending *)

Lemma cancel_if_live_user t : task_user (cancel_if_live t) = task_user t.
Proof. unfold cancel_if_live. by destruct (done t). Qed.

Lemma cancel_if_live_done t : done (cancel_if_live t) = true.
Proof. unfold cancel_if_live. by destruct (done t) eqn:E. Qed.

Lemma done_not_running t : done t = true -> state t <> Running.
Proof. unfold done. by destruct (state t). Qed.

Lemma _cancel_timer_tasks u w i :
  tasks (snd (_cancel_timer u w)) !! i =
  if decide (timers w !! u = Some i) then cancel_if_live <$> tasks w !! i
  else tasks w !! i.
Proof.
  unfold _cancel_timer, modify. simpl.
  destruct (timers w !! u) as [tid|] eqn:Ht.
  - destruct (decide (Some tid = Some i)) as [[= ->]|Hne].
    + destruct (tasks w !! i) as [t|] eqn:Hk; simpl; [|by rewrite Hk].
      unfold cancel_if_live. destruct (done t); simpl; [by rewrite Hk|].
      apply list_lookup_insert_eq. by eapply lookup_lt_Some.
    + destruct (tasks w !! tid) as [t|] eqn:Hk; simpl; [|done].
      destruct (done t); simpl; [done|].
      apply list_lookup_insert_ne. congruence.
  - by rewrite decide_False.
Qed.

Lemma live_eq w w' u :
  timers w' = timers w -> tasks w' = tasks w -> live w' u <-> live w u.
Proof. unfold live. by intros -> ->. Qed.

Lemma handles_inv_eq w w' :
  timers w' = timers w -> tasks w' = tasks w -> handles_inv w -> handles_inv w'.
Proof. unfold handles_inv. by intros -> ->. Qed.

Lemma running_only_for_eq u w w' :
  timers w' = timers w -> tasks w' = tasks w ->
  running_only_for u w -> running_only_for u w'.
Proof. unfold running_only_for. by intros -> ->. Qed.

Lemma no_running_eq w w' : tasks w' = tasks w -> no_running w -> no_running w'.
Proof. unfold no_running. by intros ->. Qed.

Lemma no_running_only_for u w : no_running w -> running_only_for u w.
Proof. intros H tid t Hk Hr. by destruct (H tid t Hk). Qed.

Lemma _cancel_timer_handles u w :
  handles_inv w -> running_only_for u w ->
  let w' := snd (_cancel_timer u w) in
  handles_inv w' /\ no_running w' /\ ~ live w' u /\
  (forall u', u' <> u -> live w' u' <-> live w u').
Proof.
  intros [H1 H4] Hrun w'.
  destruct (_cancel_timer_spec u w) as (w1 & E & _ & _ & _ & _ & Ht & _).
  assert (timers w' = delete u (timers w)) as Ht' by (unfold w'; by rewrite E).
  assert (forall i, tasks w' !! i =
            if decide (timers w !! u = Some i) then cancel_if_live <$> tasks w !! i
            else tasks w !! i) as Hk' by apply _cancel_timer_tasks.
  clearbody w'. clear E Ht w1.
  split; [split|split; [|split]].
  - intros i t Hi Hd. rewrite Hk' in Hi. rewrite Ht'.
    destruct (decide (timers w !! u = Some i)) as [Hu|Hu].
    + destruct (tasks w !! i) as [t0|]; simpl in Hi; [|done].
      injection Hi as <-. by rewrite cancel_if_live_done in Hd.
    + pose proof (H1 i t Hi Hd) as Hreg.
      rewrite lookup_delete_ne; [done|]. intros Heq. rewrite <- Heq in Hreg. congruence.
  - intros u' tid Hu'. rewrite Ht' in Hu'.
    destruct (decide (u = u')) as [->|Hne]; [by rewrite lookup_delete_eq in Hu'|].
    rewrite lookup_delete_ne in Hu' by done.
    destruct (H4 u' tid Hu') as (t & Hk & Hut). rewrite Hk', Hk.
    destruct (decide _); simpl; eauto. eexists. split; [done|].
    by rewrite cancel_if_live_user.
  - intros i t Hi. rewrite Hk' in Hi.
    destruct (decide (timers w !! u = Some i)) as [Hu|Hu].
    + destruct (tasks w !! i) as [t0|]; simpl in Hi; [|done].
      injection Hi as <-. apply done_not_running, cancel_if_live_done.
    + intros Hr. by destruct Hu, (Hrun i t Hi Hr).
  - intros (tid & c & Hu & _). by rewrite Ht', lookup_delete_eq in Hu.
  - intros u' Hne. unfold live. rewrite Ht', lookup_delete_ne by done.
    split; intros (tid & c & Hu & Hk); exists tid, c; (split; [done|]).
    + rewrite Hk' in Hk. destruct (decide (timers w !! u = Some tid)) as [Hu0|_]; [|done].
      destruct (H4 u tid Hu0) as (t & Hk0 & Hut0).
      destruct (H4 u' tid Hu) as (t' & Hk1 & Hut1). congruence.
    + rewrite Hk'. destruct (decide (timers w !! u = Some tid)) as [Hu0|_]; [|done].
      destruct (H4 u tid Hu0) as (t & Hk0 & Hut0). rewrite Hk in Hk0.
      injection Hk0 as <-. simpl in Hut0. congruence.
Qed.

Lemma _start_timer_unfold u c w :
  let w1 := snd (_cancel_timer u w) in
  _start_timer u c w =
  (Ok tt, set_timers (fun t => <[u := length (tasks w1)]> t)
            (set_tasks (fun ts => ts ++ [Task u c Sleeping]) w1)).
Proof. reflexivity. Qed.

Lemma _start_timer_handles u c w :
  handles_inv w -> running_only_for u w ->
  let w' := snd (_start_timer u c w) in
  handles_inv w' /\ no_running w' /\ live w' u /\
  (forall u', u' <> u -> live w' u' <-> live w u').
Proof.
  intros Hh Hrun w'.
  destruct (_cancel_timer_handles u w Hh Hrun) as ([H1 H4] & Hnr & Hnl & Hothers).
  assert (timers (snd (_cancel_timer u w)) !! u = None) as Hnone.
  { destruct (_cancel_timer_spec u w) as (w1 & E & _ & _ & _ & _ & Ht & _).
    rewrite E. simpl. rewrite Ht. apply lookup_delete_eq. }
  unfold w'. rewrite _start_timer_unfold.
  set (w1 := snd (_cancel_timer u w)) in *. clearbody w1. clear w'.
  split; [split|split; [|split]]; simpl.
  - intros i t Hi Hd.
    destruct (decide (i < length (tasks w1))%nat) as [Hlt|Hge].
    + rewrite lookup_app_l in Hi by done. pose proof (H1 i t Hi Hd) as Hreg.
      rewrite lookup_insert_ne; [done|]. intros Heq. rewrite <- Heq in Hreg. congruence.
    + rewrite lookup_app_r in Hi by lia.
      destruct (i - length (tasks w1))%nat as [|k] eqn:Hk; simpl in Hi; [|done].
      injection Hi as <-. simpl. rewrite lookup_insert_eq. f_equal. lia.
  - intros u' tid Hu'.
    destruct (decide (u = u')) as [<-|Hne].
    + rewrite lookup_insert_eq in Hu'. injection Hu' as <-.
      exists (Task u c Sleeping). split; [|done].
      rewrite lookup_app_r by lia. by rewrite Nat.sub_diag.
    + rewrite lookup_insert_ne in Hu' by done.
      destruct (H4 u' tid Hu') as (t & Hk & Hut). exists t. split; [|done].
      rewrite lookup_app_l; [done|]. by eapply lookup_lt_Some.
  - intros i t Hi. simpl in Hi.
    destruct (decide (i < length (tasks w1))%nat) as [Hlt|Hge].
    + rewrite lookup_app_l in Hi by done. by apply (Hnr i).
    + rewrite lookup_app_r in Hi by lia.
      destruct (i - length (tasks w1))%nat as [|k]; simpl in Hi; [|done].
      by injection Hi as <-.
  - exists (length (tasks w1)), c. simpl. rewrite lookup_insert_eq. split; [done|].
    rewrite lookup_app_r by lia. by rewrite Nat.sub_diag.
  - intros u' Hne. rewrite <- (Hothers u' Hne). unfold live. simpl.
    rewrite lookup_insert_ne by done.
    split; intros (tid & c' & Hu & Hk); exists tid, c'; (split; [done|]).
    + destruct (H4 u' tid Hu) as (t & Hk0 & _). simpl in Hk.
      rewrite lookup_app_l in Hk; [done|]. by eapply lookup_lt_Some.
    + rewrite lookup_app_l; [done|]. by eapply lookup_lt_Some.
Qed.

Lemma handle_state_unfold u c remaining w :
  handle_state u c remaining w =
  match remaining with
  | [] => _cancel_timer u (set_pending (delete u) w)
  | _ :: _ => _start_timer u c (set_pending (fun p => <[u := remaining]> p) w)
  end.
Proof. by destruct remaining. Qed.

(** The dispatcher on a non-empty queue, seen from the handles. *)
Lemma dispatch_handles u c w items :
  pending w !! u = Some items -> items <> [] ->
  handles_inv w -> running_only_for u w ->
  let w' := snd (send_album_for_user u c w) in
  handles_inv w' /\ no_running w' /\
  (live w' u <-> drop 10 items <> []) /\
  (forall u', u' <> u -> live w' u' <-> live w u') /\
  pending w' = (if decide (drop 10 items = []) then delete u (pending w)
                else <[u := drop 10 items]> (pending w)).
Proof.
  intros Hq Hne Hh Hrun w'.
  destruct (dispatch_spec u c w items Hq Hne) as (w1 & E & _ & _ & _ & Hp & _).
  assert (pending w' = (if decide (drop 10 items = []) then delete u (pending w)
                        else <[u := drop 10 items]> (pending w))) as Hp'.
  { unfold w'. by rewrite E. }
  clear E Hp w1.
  assert (handles_inv w' /\ no_running w' /\
          (live w' u <-> drop 10 items <> []) /\
          (forall u', u' <> u -> live w' u' <-> live w u')) as (A & B & C & D);
    [|exact (conj A (conj B (conj C (conj D Hp'))))].
  clear Hp'. unfold w'. clear w'.
  rewrite (send_album_for_user_unfold _ _ _ _ Hq Hne), handle_state_unfold.
  destruct (try_send_frame c (take 10 items)
              (set_send_locks (fun s => {[u]} ∪ s) w)) as (cs & Et).
  rewrite Et. simpl.
  set (wt := extended cs (set_send_locks (fun s => {[u]} ∪ s) w)).
  assert (timers wt = timers w /\ tasks wt = tasks w) as [Htt Htk] by done.
  destruct (drop 10 items) as [|x l] eqn:Hd.
  - destruct (_cancel_timer_handles u (set_pending (delete u) wt))
      as (Hh' & Hnr & Hnl & Hothers).
    + by apply (handles_inv_eq w).
    + by apply (running_only_for_eq u w).
    + split; [exact Hh'|]. split; [exact Hnr|].
      split; [split; [intros Hl; by destruct Hnl|intros H; by destruct H]|].
      intros u' Hu'. rewrite (Hothers u' Hu'). by apply live_eq.
  - destruct (_start_timer_handles u c (set_pending (fun p => <[u := x :: l]> p) wt))
      as (Hh' & Hnr & Hl & Hothers).
    + by apply (handles_inv_eq w).
    + by apply (running_only_for_eq u w).
    + split; [exact Hh'|]. split; [exact Hnr|].
      split; [split; [by intros _|by intros _]|].
      intros u' Hu'. rewrite (Hothers u' Hu'). by apply live_eq.
Qed.

Lemma done_false_sleeping t : state t <> Running -> done t = false -> state t = Sleeping.
Proof. unfold done. by destruct (state t). Qed.

Lemma timers_inv_split w :
  timers_inv w ->
  handles_inv w /\ no_running w /\ (forall u, is_Some (pending w !! u) <-> live w u).
Proof.
  intros (T1 & T2 & T4 & T3). split; [split|split]; try done.
  intros tid t Hk Hd. apply (T1 tid t Hk). apply done_false_sleeping; [|done].
  by apply (T2 tid).
Qed.

Lemma timers_inv_join w :
  handles_inv w -> no_running w ->
  (forall u, is_Some (pending w !! u) <-> live w u) -> timers_inv w.
Proof.
  intros [H1 H4] Hnr T3. split; [|split; [|split]]; try done.
  intros tid t Hk Hs. apply (H1 tid t Hk). unfold done. by rewrite Hs.
Qed.

Lemma timers_inv_eq w w' :
  pending w' = pending w -> timers w' = timers w -> tasks w' = tasks w ->
  timers_inv w -> timers_inv w'.
Proof. unfold timers_inv, live. by intros -> -> ->. Qed.

(** One run of the dispatcher from a state in the middle of a handler. *)
Lemma dispatch_inv u c w :
  registry_inv w -> handles_inv w -> running_only_for u w ->
  (forall u', u' <> u -> is_Some (pending w !! u') <-> live w u') ->
  (pending w !! u = None -> no_running w /\ ~ live w u) ->
  timers_inv (snd (send_album_for_user u c w)).
Proof.
  intros Hreg Hh Hrun Helse Hnone.
  destruct (pending w !! u) as [items|] eqn:Hq.
  - assert (items <> []) as Hne by exact (Hreg u items Hq).
    destruct (dispatch_handles u c w items Hq Hne Hh Hrun) as (Hh' & Hnr & Hl & Ho & Hp).
    apply timers_inv_join; [done|done|].
    intros u'. destruct (decide (u' = u)) as [->|Hu'].
    + rewrite Hl, Hp. destruct (decide (drop 10 items = [])) as [Hd|Hd].
      * rewrite lookup_delete_eq. split; [by intros [? ?]|done].
      * rewrite lookup_insert_eq. split; [done|eauto].
    + rewrite (Ho u' Hu'), <- (Helse u' Hu'), Hp.
      destruct (decide (drop 10 items = []));
        by rewrite ?lookup_delete_ne, ?lookup_insert_ne.
  - destruct (Hnone eq_refl) as [Hnr Hnl].
    rewrite send_album_for_user_empty by (by rewrite Hq).
    apply (timers_inv_eq w); try done.
    apply timers_inv_join; [done|done|].
    intros u'. destruct (decide (u' = u)) as [->|Hu']; [|by apply Helse].
    rewrite Hq. split; [by intros [? ?]|done].
Qed.

Section TimersInvariant.

Variable cfg : config.
Variable str_float : float -> string.

Lemma send_album_command_timers m w :
  registry_inv w -> timers_inv w -> timers_inv (snd (send_album_command m w)).
Proof.
  intros Hreg Hinv. destruct (timers_inv_split w Hinv) as (Hh & Hnr & T3).
  destruct (_cancel_timer_handles (from_user m) w Hh (no_running_only_for _ _ Hnr))
    as (Hh1 & Hnr1 & Hnl1 & Ho1).
  destruct (_cancel_timer_spec (from_user m) w) as (w1 & E & Hp1 & _).
  unfold send_album_command, bind. rewrite E in *. simpl in *.
  apply dispatch_inv.
  - intros u l. rewrite Hp1. apply Hreg.
  - exact Hh1.
  - by apply no_running_only_for.
  - intros u' Hu'. by rewrite Hp1, (Ho1 u' Hu').
  - by intros _.
Qed.

Lemma cancel_queue_timers m w :
  timers_inv w -> timers_inv (snd (cancel_queue m w)).
Proof.
  intros Hinv. destruct (timers_inv_split w Hinv) as (Hh & Hnr & T3).
  rewrite cancel_queue_unfold.
  destruct (bool_decide _); rewrite platform_world;
    [|by apply (timers_inv_eq w)].
  set (w0 := set_pending (delete (from_user m)) w).
  destruct (_cancel_timer_handles (from_user m) w0) as (Hh1 & Hnr1 & Hnl1 & Ho1).
  { by apply (handles_inv_eq w). }
  { apply no_running_only_for. by apply (no_running_eq w). }
  destruct (_cancel_timer_spec (from_user m) w0) as (w1 & E & Hp1 & _).
  rewrite E in *. simpl in *.
  apply (timers_inv_eq w1); try done.
  apply timers_inv_join; [done|done|].
  intros u'. rewrite Hp1. unfold w0. simpl.
  destruct (decide (u' = from_user m)) as [->|Hu'].
  - rewrite lookup_delete_eq. split; [by intros [? ?]|done].
  - rewrite lookup_delete_ne by done. rewrite (Ho1 u' Hu'). rewrite T3. by apply live_eq.
Qed.

Lemma collect_media_timers m w :
  registry_inv w -> timers_inv w ->
  timers_inv (snd (collect_media cfg str_float m w)).
Proof.
  intros Hreg Hinv. destruct (timers_inv_split w Hinv) as (Hh & Hnr & T3).
  destruct (detect_media_type m) as [t f| |] eqn:Hd.
  - destruct (collect_media_detected cfg str_float m w t f Hd) as [Hp Hr].
    rewrite Hr.
    set (q := default [] (pending w !! from_user m) ++ [Item t f (caption_or_None m)]) in *.
    set (w0 := pending_append (from_user m) (Item t f (caption_or_None m)) w) in *.
    assert (q <> []) as Hq by (unfold q; by destruct (default _ _)).
    assert (handles_inv w0) as Hh0 by (by apply (handles_inv_eq w)).
    assert (running_only_for (from_user m) w0) as Hrun0.
    { apply no_running_only_for. by apply (no_running_eq w). }
    assert (forall u', u' <> from_user m -> is_Some (pending w !! u') <-> live w0 u') as Ho0.
    { intros u' _. rewrite T3. symmetry. by apply live_eq. }
    destruct (Z.of_nat _ >=? _).
    + destruct (_cancel_timer_handles (from_user m) w0 Hh0 Hrun0)
        as (Hh1 & Hnr1 & Hnl1 & Ho1).
      destruct (_cancel_timer_spec (from_user m) w0) as (w1 & E & Hp1 & _).
      rewrite E in *. simpl in *.
      apply dispatch_inv.
      * intros u l. rewrite Hp1, Hp.
        destruct (decide (u = from_user m)) as [->|Hu].
        -- rewrite lookup_insert_eq. by intros [= <-].
        -- rewrite lookup_insert_ne by done. apply Hreg.
      * exact Hh1.
      * by apply no_running_only_for.
      * intros u' Hu'. rewrite Hp1, Hp, lookup_insert_ne by done.
        by rewrite (Ho1 u' Hu'), <- (Ho0 u' Hu').
      * rewrite Hp1, Hp, lookup_insert_eq. discriminate.
    + destruct (_start_timer_handles (from_user m) (chat m) w0 Hh0 Hrun0)
        as (Hh1 & Hnr1 & Hl1 & Ho1).
      destruct (_start_timer_spec (from_user m) (chat m) w0) as (w1 & E & Hp1 & _).
      rewrite E in *. simpl in *.
      assert (timers_inv w1) as Hinv1.
      { apply timers_inv_join; [done|done|].
        intros u'. rewrite Hp1, Hp.
        destruct (decide (u' = from_user m)) as [->|Hu'].
        - rewrite lookup_insert_eq. split; [done|eauto].
        - rewrite lookup_insert_ne by done. by rewrite (Ho1 u' Hu'), <- (Ho0 u' Hu'). }
      destruct (Nat.eqb _ 1); [rewrite platform_world|]; by apply (timers_inv_eq w1).
  - unfold collect_media. rewrite Hd, platform_world. by apply (timers_inv_eq w).
  - unfold collect_media. by rewrite Hd.
Qed.

End TimersInvariant.

Lemma finish_task_no_running tid w : no_running w -> tasks (finish_task tid w) = tasks w.
Proof.
  intros Hnr. unfold finish_task. simpl.
  destruct (tasks w !! tid) as [[u c st]|] eqn:Hk; [|done].
  destruct st; try done. by destruct (Hnr tid _ Hk).
Qed.

Lemma _wait_and_send_timers tid w :
  registry_inv w -> timers_inv w -> timers_inv (snd (_wait_and_send tid w)).
Proof.
  intros Hreg Hinv.
  destruct (tasks w !! tid) as [[u c st]|] eqn:Hk;
    [|unfold _wait_and_send; by rewrite Hk].
  destruct st; try (unfold _wait_and_send; by rewrite Hk).
  rewrite (_wait_and_send_sleeping tid w u c Hk). simpl.
  pose proof Hinv as (T1 & T2 & T4 & T3).
  destruct (timers_inv_split w Hinv) as ([H1 _] & Hnr & _).
  assert (timers w !! u = Some tid) as Hu by exact (T1 tid _ Hk eq_refl).
  assert (live w u) as Hlive by (by exists tid, c).
  destruct (proj2 (T3 u) Hlive) as [l Hq].
  assert (l <> []) as Hne by exact (Hreg u l Hq).
  rewrite Hq. destruct l as [|x l]; [done|].
  set (w2 := set_tasks (fun ts => <[tid := Task u c Running]> ts) w).
  assert (tid < length (tasks w))%nat as Hlt by (by eapply lookup_lt_Some).
  assert (timers_inv (snd (send_album_for_user u c w2))) as Hinv3.
  { apply dispatch_inv.
    - intros u' l'. apply Hreg.
    - split.
      + intros i t Hi Hd. simpl in Hi |- *.
        destruct (decide (i = tid)) as [->|Hi'].
        * rewrite list_lookup_insert_eq in Hi by done. by injection Hi as <-.
        * rewrite list_lookup_insert_ne in Hi by done. by apply H1.
      + intros u' j Hj. simpl in Hj |- *.
        destruct (T4 u' j Hj) as (t & Ht & Hut).
        destruct (decide (j = tid)) as [->|Hj'].
        * rewrite list_lookup_insert_eq by done. eexists. split; [done|].
          simpl. rewrite Hk in Ht. by injection Ht as <-.
        * rewrite list_lookup_insert_ne by done. eauto.
    - intros i t Hi Hr. simpl in Hi |- *.
      destruct (decide (i = tid)) as [->|Hi']; [done|].
      rewrite list_lookup_insert_ne in Hi by done. by destruct (T2 i t Hi).
    - intros u' Hu'. change (is_Some (pending w !! u') <-> live w2 u').
      rewrite (T3 u'). unfold live. simpl.
      split; intros (j & c' & Hj & Hjk); exists j, c'; (split; [done|]).
      + rewrite list_lookup_insert_ne; [done|]. intros <-.
        destruct (T4 u' tid Hj) as (t & Ht & Hut). rewrite Hk in Ht.
        injection Ht as <-. by destruct Hu'.
      + destruct (decide (j = tid)) as [->|Hj'].
        * rewrite list_lookup_insert_eq in Hjk by done. by injection Hjk as <- _.
        * by rewrite list_lookup_insert_ne in Hjk by done.
    - simpl. by rewrite Hq. }
  destruct (timers_inv_split _ Hinv3) as (_ & Hnr3 & _).
  apply (timers_inv_eq (snd (send_album_for_user u c w2))); try done.
  by apply finish_task_no_running.
Qed.

Lemma step_timers cfg str_float w ev :
  registry_inv w -> timers_inv w -> timers_inv (step cfg str_float w ev).
Proof.
  intros Hreg Hinv. unfold step. destruct ev as [m|m|m|m|m|tid]; simpl.
  - by apply collect_media_timers.
  - by apply send_album_command_timers.
  - by apply cancel_queue_timers.
  - unfold status, bind, gets. rewrite platform_world. by apply (timers_inv_eq w).
  - unfold start. rewrite platform_world. by apply (timers_inv_eq w).
  - by apply _wait_and_send_timers.
Qed.

Lemma run_timers cfg str_float evs : forall w,
  registry_inv w -> timers_inv w ->
  registry_inv (run cfg str_float w evs) /\ timers_inv (run cfg str_float w evs).
Proof.
  induction evs as [|ev evs IH]; intros w Hreg Hinv; simpl; [done|].
  apply IH; [by apply registry_step_inv|by apply step_timers].
Qed.

Lemma initial_timers_inv outcomes : timers_inv (initial outcomes).
Proof.
  unfold timers_inv, live. simpl. split; [|split; [|split]].
  - intros tid t H. by rewrite lookup_nil in H.
  - intros tid t H. by rewrite lookup_nil in H.
  - intros u tid H. by rewrite lookup_empty in H.
  - intros u. rewrite lookup_empty. split; [by intros [? ?]|].
    intros (tid & c & H & _). by rewrite lookup_empty in H.
Qed.

(** In every state the bot reaches by handling events one after the other
    a user never has two timers: two sleeping tasks of one user are the
    same task, and that task is the one the user's handle points to. *)
Theorem reachable_one_timer_per_user (cfg : config) (str_float : float -> string)
    (outcomes : list (option string)) (evs : list event)
    (tid1 tid2 : nat) (t1 t2 : task) :
  let w := run cfg str_float (initial outcomes) evs in
  tasks w !! tid1 = Some t1 -> tasks w !! tid2 = Some t2 ->
  state t1 = Sleeping -> state t2 = Sleeping -> task_user t1 = task_user t2 ->
  tid1 = tid2 /\ timers w !! task_user t1 = Some tid1.
Proof.
  intros w H1 H2 Hs1 Hs2 Hu.
  destruct (run_timers cfg str_float evs (initial outcomes)) as [_ (T1 & _)].
  - intros u l H. simpl in H. by rewrite lookup_empty in H.
  - apply initial_timers_inv.
  - pose proof (T1 tid1 t1 H1 Hs1) as R1. pose proof (T1 tid2 t2 H2 Hs2) as R2.
    fold w in R1, R2. rewrite <- Hu in R2. split; [congruence|done].
Qed.

(** In every such state a user has pending items exactly when that user
    has a live timer - a handle that points to a sleeping task of that
    user: nothing stays queued without a timer that will flush it, and no
    timer is left to fire on an empty queue. *)
Theorem reachable_pending_iff_timer (cfg : config) (str_float : float -> string)
    (outcomes : list (option string)) (evs : list event) (u : Z) :
  let w := run cfg str_float (initial outcomes) evs in
  (exists x l, pending w !! u = Some (x :: l)) <->
  (exists tid chat_id, timers w !! u = Some tid /\
                       tasks w !! tid = Some (Task u chat_id Sleeping)).
Proof.
  intros w.
  destruct (run_timers cfg str_float evs (initial outcomes)) as [Hreg (_ & _ & _ & T3)].
  - intros u' l H. simpl in H. by rewrite lookup_empty in H.
  - apply initial_timers_inv.
  - fold w in Hreg, T3. rewrite <- (T3 u). split.
    + intros (x & l & ->). eauto.
    + intros [[|x l] Hq]; [by destruct (Hreg u [] Hq)|eauto].
Qed.

Lemma reachable_one_timer_per_user_witness :
  timers (run (sample_config 10) sample_str_float (initial []) (photos 2)) !! 7
  = Some 1%nat.
Proof.
  refine (proj2 (reachable_one_timer_per_user (sample_config 10) sample_str_float []
    (photos 2) 1 1 (Task 7 70 Sleeping) (Task 7 70 Sleeping) _ _ _ _ _));
    vm_compute; reflexivity.
Defined.

(** ** A cancelled timer stays silent *)

Lemma _wait_and_send_done tid w : is_done w tid -> _wait_and_send tid w = (Ok tt, w).
Proof.
  intros (t & Hk & Hd). unfold _wait_and_send. rewrite Hk.
  destruct t as [u c st]. unfold done in Hd. simpl in Hd. by destruct st.
Qed.

Lemma is_done_cancel u w tid :
  is_done w tid -> is_done (snd (_cancel_timer u w)) tid.
Proof.
  intros (t & Hk & Hd). unfold is_done. rewrite _cancel_timer_tasks, Hk.
  destruct (decide _); simpl; eauto.
  exists (cancel_if_live t). split; [done|]. apply cancel_if_live_done.
Qed.

Lemma is_done_start u c w tid :
  is_done w tid -> is_done (snd (_start_timer u c w)) tid.
Proof.
  intros Hd. destruct (is_done_cancel u w tid Hd) as (t & Hk & Hdt).
  rewrite _start_timer_unfold. exists t. split; [|done]. simpl.
  rewrite lookup_app_l; [done|]. by eapply lookup_lt_Some.
Qed.

Lemma is_done_eq w w' tid : tasks w' = tasks w -> is_done w tid -> is_done w' tid.
Proof. unfold is_done. by intros ->. Qed.

Lemma is_done_dispatch u c w tid :
  is_done w tid -> is_done (snd (send_album_for_user u c w)) tid.
Proof.
  intros Hd. destruct (pending w !! u) as [[|x l]|] eqn:Hq.
  - rewrite send_album_for_user_empty by (by rewrite Hq). by apply (is_done_eq w).
  - rewrite (send_album_for_user_unfold u c w (x :: l) Hq) by done.
    set (rem := drop 10 (x :: l)). clearbody rem.
    rewrite handle_state_unfold.
    destruct (try_send_frame c (take 10 (x :: l))
                (set_send_locks (fun s => {[u]} ∪ s) w)) as (cs & Et).
    rewrite Et. cbn [snd].
    destruct rem;
      [apply is_done_cancel|apply is_done_start]; by apply (is_done_eq w).
  - rewrite send_album_for_user_empty by (by rewrite Hq). by apply (is_done_eq w).
Qed.

(** The task that a user's handle points to is out of the game once the
    user has forced a dispatch or cleared a non-empty queue: whether or not
    the dispatch re-armed a new timer, the old task running out afterwards
    changes nothing and sends nothing (no double send after [/send_album],
    no send after [/cancel]). *)
Theorem commands_silence_old_timer (m : message) (w : world) (tid : nat) (t : task) :
  timers w !! from_user m = Some tid -> tasks w !! tid = Some t ->
  (let w1 := snd (send_album_command m w) in _wait_and_send tid w1 = (Ok tt, w1)) /\
  (is_Some (pending w !! from_user m) ->
   let w1 := snd (cancel_queue m w) in _wait_and_send tid w1 = (Ok tt, w1)).
Proof.
  intros Hu Hk. split.
  - intros w1. apply _wait_and_send_done. unfold w1, send_album_command, bind.
    destruct (_cancel_timer_spec (from_user m) w)
      as (w2 & E & _ & _ & _ & _ & _ & _ & Hdone & _).
    rewrite E. apply is_done_dispatch. by apply (Hdone tid t).
  - intros Hsome w1. apply _wait_and_send_done. unfold w1.
    rewrite cancel_queue_unfold, bool_decide_eq_true_2 by done.
    rewrite platform_world.
    destruct (_cancel_timer_spec (from_user m) (set_pending (delete (from_user m)) w))
      as (w2 & E & _ & _ & _ & _ & _ & _ & Hdone & _).
    rewrite E. simpl snd. apply (is_done_eq w2); [done|]. by apply (Hdone tid t).
Qed.

Lemma commands_silence_old_timer_witness :
  calls (snd (_wait_and_send 0
                (snd (send_album_command (command_message 7 70 9)
                        (sample_world 7 70 12 [])))))
  = calls (snd (send_album_command (command_message 7 70 9) (sample_world 7 70 12 []))).
Proof.
  rewrite (proj1 (commands_silence_old_timer (command_message 7 70 9)
                    (sample_world 7 70 12 []) 0 (Task 7 70 Sleeping) eq_refl eq_refl)).
  reflexivity.
Defined.
